(** * File utilities: validated reads with bounded retry, text transformation, writes

    A shallow embedding of [Error_handling.py] and [Read_write.py].

    Python values are modelled as follows.
    - [str] is [string]; a character is an [ascii] standing for the code
      point of the same number (0..255).
    - [int] is [Z].
    - An exception is a class tag with its [str(e)] text; [except C] is
      [isinstance e C] over the class hierarchy.
    - The operating system is a [World]: a flat file table, a queue of
      injected I/O faults, the console streams and a log of system calls.
    - A function with effects is a state-and-exception computation [M A]. *)

From stdpp Require Import base strings gmap list pretty.
From Equations Require Import Equations.
From Stdlib Require Import ZArith QArith Qabs Lqa Lia Ascii String.

Open Scope Z_scope.
Open Scope string_scope.

(** ** Python strings *)

Module PyStr.

(** The line feed, [chr(10)], and the double quote, [chr(34)]. *)
Definition LF : ascii := "010"%char.
Definition DQUOTE : ascii := "034"%char.

(** Truth value of a [str]: only the empty string is falsy. *)
Definition truthy (s : string) : bool :=
  match s with
  | EmptyString => false
  | String _ _ => true
  end.

(** [c in s] for a one-character [c]. *)
Fixpoint contains (c : ascii) (s : string) : bool :=
  match s with
  | EmptyString => false
  | String a s' => if Ascii.eqb c a then true else contains c s'
  end.

(** [s.split(sep)] for a one-character separator: always at least one
    piece, one more than the number of separators. *)
Fixpoint split (sep : ascii) (s : string) : list string :=
  match s with
  | EmptyString => [EmptyString]
  | String a s' =>
      if Ascii.eqb a sep then EmptyString :: split sep s'
      else match split sep s' with
           | piece :: pieces => String a piece :: pieces
           | [] => [String a EmptyString]
           end
  end.

(** [sep.join(pieces)]. *)
Fixpoint join (sep : string) (pieces : list string) : string :=
  match pieces with
  | [] => EmptyString
  | [piece] => piece
  | piece :: rest => piece +:+ sep +:+ join sep rest
  end.

(** [str.isspace] on one character of the range 0..255: tab, line feed,
    vertical tab, form feed, carriage return, the separators 28..31,
    space, next line (133) and no-break space (160). *)
Definition isspace (c : ascii) : bool :=
  let n := nat_of_ascii c in
  ((9 <=? n)%nat && (n <=? 13)%nat) || ((28 <=? n)%nat && (n <=? 32)%nat)
  || (n =? 133)%nat || (n =? 160)%nat.

Fixpoint lstrip (s : string) : string :=
  match s with
  | EmptyString => EmptyString
  | String a s' => if isspace a then lstrip s' else s
  end.

Fixpoint rstrip (s : string) : string :=
  match s with
  | EmptyString => EmptyString
  | String a s' =>
      match rstrip s' with
      | EmptyString => if isspace a then EmptyString else String a EmptyString
      | t => String a t
      end
  end.

(** [s.strip()]: white space removed at both ends. *)
Definition strip (s : string) : string := rstrip (lstrip s).

(** [str(n)] and [len(s)]. *)
Definition of_int (n : Z) : string := pretty n.
Definition len (s : string) : Z := Z.of_nat (String.length s).

(** The case methods of [str] belong to the Python runtime. *)
Class CaseMethods := {
  upper : string -> string;
  lower : string -> string;
  capitalize : string -> string
}.

(** Their action on the letters a..z and A..Z, for running examples. *)
Definition upper_char (c : ascii) : ascii :=
  let n := nat_of_ascii c in
  if ((97 <=? n)%nat && (n <=? 122)%nat) then ascii_of_nat (n - 32) else c.
Definition lower_char (c : ascii) : ascii :=
  let n := nat_of_ascii c in
  if ((65 <=? n)%nat && (n <=? 90)%nat) then ascii_of_nat (n + 32) else c.

Fixpoint map_chars (f : ascii -> ascii) (s : string) : string :=
  match s with
  | EmptyString => EmptyString
  | String a s' => String (f a) (map_chars f s')
  end.

Definition ascii_capitalize (s : string) : string :=
  match s with
  | EmptyString => EmptyString
  | String a s' => String (upper_char a) (map_chars lower_char s')
  end.

Definition ascii_case : CaseMethods :=
  {| upper := map_chars upper_char;
     lower := map_chars lower_char;
     capitalize := ascii_capitalize |}.

End PyStr.

(** ** Python exceptions *)

Module PyExn.

(** The exception classes the two programs meet or define.  [FileError],
    [FileReadError] and [FileWriteError] are declared in
    [Error_handling.py]; the others are built in. *)
Inductive pyclass :=
| Exception
| OSError | FileNotFoundError | PermissionError | IsADirectoryError
| NotADirectoryError
| ValueError | UnicodeDecodeError
| EOFError
| FileError | FileReadError | FileWriteError.

#[global] Instance pyclass_eq_dec : EqDecision pyclass.
Proof. solve_decision. Defined.

(** [IOError] is an alias of [OSError]. *)
Definition IOError : pyclass := OSError.

(** The direct base class. *)
Definition base (c : pyclass) : option pyclass :=
  match c with
  | Exception => None
  | OSError => Some Exception
  | FileNotFoundError | PermissionError | IsADirectoryError
  | NotADirectoryError => Some OSError
  | ValueError => Some Exception
  | UnicodeDecodeError => Some ValueError
  | EOFError => Some Exception
  | FileError => Some Exception
  | FileReadError | FileWriteError => Some FileError
  end.

Fixpoint mro (depth : nat) (c : pyclass) : list pyclass :=
  c :: match depth, base c with
       | S d, Some b => mro d b
       | _, _ => []
       end.

Definition issubclass (c d : pyclass) : bool := bool_decide (d ∈ mro 3 c).

Record exn := mk_exn { exn_class : pyclass; exn_text : string }.

Definition isinstance (e : exn) (c : pyclass) : bool := issubclass (exn_class e) c.

(** [str(e)]. *)
Definition str (e : exn) : string := exn_text e.

End PyExn.

(** ** The operating system and the console *)

Module OS.
Import PyStr PyExn.

(** What a file holds: text, or bytes that are not valid UTF-8 (the
    first of them 0xff, in the message of the decoding error). *)
Inductive filedata := Text (s : string) | Undecodable.

(** An entry of the file table, with the permissions of the process. *)
Inductive node :=
| File (readable writable : bool) (data : filedata)
| Dir (readable writable : bool).

Inductive open_mode := ModeR | ModeW.
Inductive amode := R_OK | W_OK.

(** System calls, logged in the order they are made. *)
Inductive event :=
| EvStat (path : string)
| EvAccess (path : string) (how : amode)
| EvOpen (path : string) (mode : open_mode)
| EvSleep (secs : Z).

(** [faults] is the injection schedule: each [open] takes the head; a
    [Some e] makes that call raise [e] whatever the file table says. *)
Record World := mk_world {
  fs : gmap string node;
  faults : list (option exn);
  stdin : list string;
  stdout : list string;
  trace : list event
}.

Definition set_fs (f : gmap string node) (w : World) : World :=
  mk_world f (faults w) (stdin w) (stdout w) (trace w).
Definition set_faults (q : list (option exn)) (w : World) : World :=
  mk_world (fs w) q (stdin w) (stdout w) (trace w).
Definition set_stdin (i : list string) (w : World) : World :=
  mk_world (fs w) (faults w) i (stdout w) (trace w).
Definition emit (s : string) (w : World) : World :=
  mk_world (fs w) (faults w) (stdin w) (stdout w ++ [s]) (trace w).
Definition log (ev : event) (w : World) : World :=
  mk_world (fs w) (faults w) (stdin w) (stdout w) (trace w ++ [ev]).

(** Computations: a result or a raised exception, and the next world. *)
Inductive Res (A : Type) :=
| Return (a : A)
| Raise (e : exn).
Arguments Return {A} a.
Arguments Raise {A} e.

Definition M (A : Type) : Type := World -> Res A * World.

Definition ret {A} (a : A) : M A := fun w => (Return a, w).
Definition raise {A} (e : exn) : M A := fun w => (Raise e, w).
Definition bind {A B} (c : M A) (k : A -> M B) : M B :=
  fun w => match c w with
           | (Return a, w') => k a w'
           | (Raise e, w') => (Raise e, w')
           end.
(** [try: c  except ... as e: h e]. *)
Definition try_except {A} (c : M A) (h : exn -> M A) : M A :=
  fun w => match c w with
           | (Return a, w') => (Return a, w')
           | (Raise e, w') => h e w'
           end.

Declare Scope py_scope.
Delimit Scope py_scope with py.
Notation "x <- c ;; k" := (bind c (fun x => k))
  (at level 100, c at next level, right associativity) : py_scope.
Notation "c ;; k" := (bind c (fun _ => k))
  (at level 100, right associativity) : py_scope.
Open Scope py_scope.

(** [print(s)]: one write to the console. *)
Definition print (s : string) : M unit := fun w => (Return tt, emit s w).

(** [input(prompt)]: writes the prompt and takes the next line. *)
Definition input (prompt : string) : M string :=
  fun w => match stdin w with
           | line :: rest => (Return line, set_stdin rest (emit prompt w))
           | [] => (Raise (mk_exn EOFError "EOF when reading a line"), emit prompt w)
           end.

(** [time.sleep(secs)] refuses a negative duration. *)
Definition time_sleep (secs : Z) : M unit :=
  fun w => if (secs <? 0)%Z
           then (Raise (mk_exn ValueError "sleep length must be non-negative"), w)
           else (Return tt, log (EvSleep secs) w).

Definition os_path_exists (path : string) : M bool :=
  fun w => (Return (bool_decide (is_Some (fs w !! path))), log (EvStat path) w).

Definition os_path_isfile (path : string) : M bool :=
  fun w => (Return (match fs w !! path with Some (File _ _ _) => true | _ => false end),
            log (EvStat path) w).

Definition permits (n : node) (how : amode) : bool :=
  match n, how with
  | File r _ _, R_OK | Dir r _, R_OK => r
  | File _ wr _, W_OK | Dir _ wr, W_OK => wr
  end.

(** [os.access(path, how)]: false for a missing path. *)
Definition os_access (path : string) (how : amode) : M bool :=
  fun w => (Return (match fs w !! path with Some n => permits n how | None => false end),
            log (EvAccess path how) w).

(** [os.path.dirname] of [posixpath]: the part up to the last slash,
    with trailing slashes removed unless it consists of slashes only. *)
Fixpoint head_to_last_slash (p : string) : string :=
  match p with
  | EmptyString => EmptyString
  | String a p' =>
      if contains "/"%char p then String a (head_to_last_slash p') else EmptyString
  end.

Fixpoint rstrip_slash (s : string) : string :=
  match s with
  | EmptyString => EmptyString
  | String a s' =>
      match rstrip_slash s' with
      | EmptyString => if Ascii.eqb a "/"%char then EmptyString else String a EmptyString
      | t => String a t
      end
  end.

Definition os_path_dirname (p : string) : string :=
  let head := head_to_last_slash p in
  match rstrip_slash head with
  | EmptyString => head
  | stripped => stripped
  end.

(** [x or y] on strings. *)
Definition str_or (x y : string) : string := if truthy x then x else y.

Definition take_fault (w : World) : option exn * World :=
  match faults w with
  | f :: rest => (f, set_faults rest w)
  | [] => (None, w)
  end.

Definition errno_text (what path : string) : string := what +:+ ": '" +:+ path +:+ "'".

(** Whether a leading part of [path] names a regular file; the leading
    parts are taken with [os.path.dirname], one component at a time. *)
Fixpoint below_file_from (n : nat) (table : gmap string node) (path : string) : bool :=
  match n with
  | O => false
  | S n' =>
      let parent := os_path_dirname path in
      if truthy parent then
        match table !! parent with
        | Some (File _ _ _) => true
        | _ => below_file_from n' table parent
        end
      else false
  end.

Definition below_file (table : gmap string node) (path : string) : bool :=
  below_file_from (String.length path) table path.

Definition NUL : ascii := "000"%char.

Definition ends_with_slash (path : string) : bool :=
  negb (String.eqb (rstrip_slash path) path).

(** What [open] raises for a path that is not in the file table: a name
    with a NUL character is refused before any system call, a path
    below a regular file is "not a directory", any other is missing. *)
Definition lookup_error (table : gmap string node) (path : string) : exn :=
  if contains NUL path then mk_exn ValueError "embedded null byte"
  else if below_file table path then
    mk_exn NotADirectoryError (errno_text "[Errno 20] Not a directory" path)
  else mk_exn FileNotFoundError (errno_text "[Errno 2] No such file or directory" path).

(** [with open(path, 'r', encoding='utf-8') as file: return file.read()].
    The text is handed over as the file table holds it: the carriage
    returns that text mode turns into line feeds are not represented, and
    what is stated about reading back written content is stated for
    content without them. *)
Definition open_read (path : string) : M string :=
  fun w =>
    let (fault, w1) := take_fault (log (EvOpen path ModeR) w) in
    match fault with
    | Some e => (Raise e, w1)
    | None =>
        match fs w1 !! path with
        | None => (Raise (lookup_error (fs w1) path), w1)
        | Some (Dir _ _) =>
            (Raise (mk_exn IsADirectoryError
                      (errno_text "[Errno 21] Is a directory" path)), w1)
        | Some (File false _ _) =>
            (Raise (mk_exn PermissionError
                      (errno_text "[Errno 13] Permission denied" path)), w1)
        | Some (File true _ Undecodable) =>
            (Raise (mk_exn UnicodeDecodeError
                      "'utf-8' codec can't decode byte 0xff in position 0: invalid start byte"), w1)
        | Some (File true _ (Text s)) => (Return s, w1)
        end
    end.

(** What stops [open(path, 'w')] from creating a path that is not in the
    file table, if anything does: the name itself (a NUL character, a
    regular file among its leading parts, the empty name), the directory
    the file would go into, or a trailing slash, which asks for a
    directory. *)
Definition create_error (table : gmap string node) (path : string) : option exn :=
  if contains NUL path || below_file table path || negb (truthy path) then
    Some (lookup_error table path)
  else
    match table !! str_or (os_path_dirname (rstrip_slash path)) "." with
    | None =>
        Some (mk_exn FileNotFoundError
                (errno_text "[Errno 2] No such file or directory" path))
    | Some (File _ _ _) =>
        Some (mk_exn NotADirectoryError (errno_text "[Errno 20] Not a directory" path))
    | Some (Dir _ writable) =>
        if ends_with_slash path then
          Some (mk_exn IsADirectoryError (errno_text "[Errno 21] Is a directory" path))
        else if writable then None
        else Some (mk_exn PermissionError (errno_text "[Errno 13] Permission denied" path))
    end.

(** [with open(path, 'w', encoding='utf-8') as file: file.write(content)]:
    an existing writable file is replaced, a missing one is created in
    its directory.  An injected fault strikes before the file is
    touched; a write that fails after [open] has emptied the file is not
    represented. *)
Definition open_write (path content : string) : M unit :=
  fun w =>
    let (fault, w1) := take_fault (log (EvOpen path ModeW) w) in
    match fault with
    | Some e => (Raise e, w1)
    | None =>
        match fs w1 !! path with
        | Some (Dir _ _) =>
            (Raise (mk_exn IsADirectoryError
                      (errno_text "[Errno 21] Is a directory" path)), w1)
        | Some (File _ false _) =>
            (Raise (mk_exn PermissionError
                      (errno_text "[Errno 13] Permission denied" path)), w1)
        | Some (File r true _) =>
            (Return tt, set_fs (<[path := File r true (Text content)]> (fs w1)) w1)
        | None =>
            match create_error (fs w1) path with
            | Some e => (Raise e, w1)
            | None =>
                (Return tt, set_fs (<[path := File true true (Text content)]> (fs w1)) w1)
            end
        end
    end.

End OS.

(** ** Error_handling.py *)

Module Error_handling.
Import PyStr PyExn OS.

Definition invalid_chars : list ascii :=
  ["<"; ">"; ":"; DQUOTE; "/"; "\"; "|"; "?"; "*"]%char.

(** The [for char in invalid_chars] loop: it returns at the first
    character found in the name. *)
Fixpoint scan_invalid_chars (chars : list ascii) (filename : string) : M bool :=
  match chars with
  | [] => ret true
  | char :: chars' =>
      if contains char filename then
        print ("Error: Filename contains invalid character '" +:+ String char "'.") ;;
        ret false
      else scan_invalid_chars chars' filename
  end.

Definition validate_filename (filename : string) : M bool :=
  if negb (truthy (strip filename)) then
    print "Error: Filename cannot be empty." ;;
    ret false
  else scan_invalid_chars invalid_chars filename.

Definition passed : string := "File access check passed.".

Definition check_file_access (filename mode : string) : M (bool * string) :=
  if String.eqb mode "r" then
    exists_ <- os_path_exists filename ;;
    if negb exists_ then
      ret (false, "The file '" +:+ filename +:+ "' does not exist.")
    else
      isfile <- os_path_isfile filename ;;
      if negb isfile then
        ret (false, "'" +:+ filename +:+ "' is not a file.")
      else
        readable <- os_access filename R_OK ;;
        if negb readable then
          ret (false, "You don't have permission to read '" +:+ filename +:+ "'.")
        else ret (true, passed)
  else if String.eqb mode "w" then
    exists_ <- os_path_exists filename ;;
    if exists_ then
      writable <- os_access filename W_OK ;;
      if negb writable then
        ret (false, "You don't have permission to write to '" +:+ filename +:+ "'.")
      else ret (true, passed)
    else
      let directory := str_or (os_path_dirname filename) "." in
      writable <- os_access directory W_OK ;;
      if negb writable then
        ret (false, "You don't have permission to write to the directory containing '"
                    +:+ filename +:+ "'.")
      else ret (true, passed)
  else ret (true, passed).

Definition read_error (text : string) : exn := mk_exn FileReadError text.

(** The [while attempts < max_retries] loop.  [Some content] is a
    returned string; [None] is the value of a call that leaves the loop
    without meeting a [return] or a [raise]. *)
Equations? attempt_loop (filename : string) (max_retries retry_delay attempts : Z)
    (last_error : option string) : M (option string)
    by wf (Z.to_nat (max_retries - attempts)) lt :=
  attempt_loop filename max_retries retry_delay attempts last_error
    with Z_lt_dec attempts max_retries := {
    | right _ => ret None
    | left _ =>
        try_except
          (content <- open_read filename ;; ret (Some content))
          (fun e =>
             if isinstance e FileNotFoundError then
               raise (read_error ("The file '" +:+ filename +:+ "' was not found."))
             else if isinstance e PermissionError then
               raise (read_error ("Permission denied when trying to read '"
                                  +:+ filename +:+ "'."))
             else if isinstance e UnicodeDecodeError then
               raise (read_error ("The file '" +:+ filename +:+
                 "' contains characters that cannot be decoded. Try a different encoding."))
             else if isinstance e IsADirectoryError then
               raise (read_error ("'" +:+ filename +:+ "' is a directory, not a file."))
             else if isinstance e IOError || isinstance e OSError then
               let last_error' := str e in
               let attempts' := attempts + 1 in
               print ("Error reading file (attempt " +:+ of_int attempts' +:+ "/"
                      +:+ of_int max_retries +:+ "): " +:+ last_error') ;;
               if (attempts' <? max_retries)%Z then
                 print ("Retrying in " +:+ of_int retry_delay +:+ " second(s)...") ;;
                 time_sleep retry_delay ;;
                 attempt_loop filename max_retries retry_delay attempts' (Some last_error')
               else
                 raise (read_error ("Failed to read '" +:+ filename +:+ "' after "
                                    +:+ of_int max_retries +:+ " attempts. Last error: "
                                    +:+ last_error'))
             else
               raise (read_error ("Unexpected error reading '" +:+ filename +:+ "': "
                                  +:+ str e)))
    }.
Proof. lia. Qed.

Definition read_file_with_retries (filename : string) (max_retries retry_delay : Z)
  : M (option string) :=
  attempt_loop filename max_retries retry_delay 0 None.

End Error_handling.

(** ** Read_write.py *)

Module Read_write.
Import PyStr PyExn OS.

(** [None] is Python's [None]. *)
Definition read_file (filename : string) : M (option string) :=
  try_except
    (content <- open_read filename ;; ret (Some content))
    (fun e =>
       if isinstance e FileNotFoundError then
         print ("Error: The file '" +:+ filename +:+ "' was not found.") ;;
         ret None
       else if isinstance e PermissionError then
         print ("Error: You don't have permission to read '" +:+ filename +:+ "'.") ;;
         ret None
       else if isinstance e Exception then
         print ("Unexpected error reading '" +:+ filename +:+ "': " +:+ str e) ;;
         ret None
       else raise e).

Definition write_file (filename content : string) : M bool :=
  try_except
    (open_write filename content ;; ret true)
    (fun e =>
       if isinstance e PermissionError then
         print ("Error: You don't have permission to write to '" +:+ filename +:+ "'.") ;;
         ret false
       else if isinstance e Exception then
         print ("Unexpected error writing to '" +:+ filename +:+ "': " +:+ str e) ;;
         ret false
       else raise e).

Section WithCase.
Context {case : CaseMethods}.

Definition default_modification_type : string := "uppercase".

Definition modify_content (content modification_type : string) : string :=
  if negb (truthy content) then EmptyString
  else if String.eqb modification_type "uppercase" then upper content
  else if String.eqb modification_type "lowercase" then lower content
  else if String.eqb modification_type "capitalize_lines" then
    join (String LF EmptyString) (map (fun line => capitalize line) (split LF content))
  else if String.eqb modification_type "reverse_lines" then
    join (String LF EmptyString) (rev (map (fun line => line) (split LF content)))
  else upper content.

(** The [options] dictionary and [options.get(choice, "uppercase")]. *)
Definition options : gmap string string :=
  <["1" := "uppercase"]> (<["2" := "lowercase"]>
    (<["3" := "capitalize_lines"]> (<["4" := "reverse_lines"]> ∅))).

Definition get_modification_choice : M string :=
  print (String LF "Choose a modification type:") ;;
  print "1. Convert to UPPERCASE" ;;
  print "2. Convert to lowercase" ;;
  print "3. Capitalize each line" ;;
  print "4. Reverse the order of lines" ;;
  choice <- input "Enter your choice (1-4): " ;;
  ret (default "uppercase" (options !! choice)).

(** The last step of [main], reached only when the write goes ahead. *)
Definition write_and_report (output_filename content modified_content mod_type : string)
  : M unit :=
  ok <- write_file output_filename modified_content ;;
  if ok then
    print ("Successfully wrote modified content to '" +:+ output_filename +:+ "'.") ;;
    print ("Modified " +:+ of_int (len content) +:+ " characters using '"
           +:+ mod_type +:+ "' modification.")
  else ret tt.

Definition main : M unit :=
  print "=== File Read & Write Challenge ===" ;;
  input_filename <- input "Enter the name of the file to read: " ;;
  content <- read_file input_filename ;;
  match content with
  | None => ret tt
  | Some content =>
      mod_type <- get_modification_choice ;;
      let modified_content := modify_content content mod_type in
      output_filename <-
        input "Enter the name of the file to write the modified content to: " ;;
      exists_ <- os_path_exists output_filename ;;
      if exists_ then
        overwrite <- input ("File '" +:+ output_filename
                            +:+ "' already exists. Overwrite? (y/n): ") ;;
        if negb (String.eqb (lower overwrite) "y") then
          print "Operation cancelled." ;;
          ret tt
        else write_and_report output_filename content modified_content mod_type
      else write_and_report output_filename content modified_content mod_type
  end.

End WithCase.
End Read_write.

(** ** Error_handling.py: the file report and the interactive program *)

Module Error_handling_lab.
Import PyStr PyExn OS Error_handling.

(** The clock, the file metadata and the working directory belong to the
    platform.  [elapsed_4f start stop] is the text of
    [f"{(stop - start):.4f}"] and [strftime_local t] that of
    [time.strftime("%Y-%m-%d %H:%M:%S", time.localtime(t))]. *)
Class Platform := {
  timestamp : Type;
  time_time : M timestamp;
  elapsed_4f : timestamp -> timestamp -> string;
  os_path_getsize : string -> M Z;
  os_path_getmtime : string -> M timestamp;
  strftime_local : timestamp -> string;
  os_path_abspath : string -> M string
}.

(** [os.path.basename] of [posixpath]: what follows the last slash. *)
Fixpoint os_path_basename (p : string) : string :=
  match p with
  | EmptyString => EmptyString
  | String _ p' => if contains "/"%char p then os_path_basename p' else p
  end.

(** [s.count(c)] for a one-character [c]. *)
Fixpoint count_char (c : ascii) (s : string) : Z :=
  match s with
  | EmptyString => 0
  | String a s' => (if Ascii.eqb a c then 1 else 0) + count_char c s'
  end.

(** [s.split()]: the maximal runs of characters that are not white space. *)
Fixpoint split_whitespace (s : string) : list string :=
  match s with
  | EmptyString => []
  | String a s' =>
      if isspace a then split_whitespace s'
      else match s' with
           | EmptyString => [String a EmptyString]
           | String b _ =>
               if isspace b then String a EmptyString :: split_whitespace s'
               else match split_whitespace s' with
                    | word :: words => String a word :: words
                    | [] => [String a EmptyString]
                    end
           end
  end.

(** The integer nearest to [q], the even one of two at equal distance. *)
Definition round_half_even (q : Q) : Z :=
  let d := Z.pos (Qden q) in
  let low := (Qnum q / d)%Z in
  match (2 * (Qnum q mod d) ?= d)%Z with
  | Lt => low
  | Gt => (low + 1)%Z
  | Eq => if Z.even low then low else (low + 1)%Z
  end.

(** [f"{q:.2f}"].  A size is held exactly: dividing by 1024 only moves the
    binary exponent of a float, and a size below 2^53 has no rounding
    when it first becomes one. *)
Definition format_2f (q : Q) : string :=
  let hundredths := round_half_even (Qabs q * 100) in
  let cents := (hundredths mod 100)%Z in
  (if Qlt_le_dec q 0 then "-" else EmptyString)
  +:+ of_int (hundredths / 100) +:+ "."
  +:+ (if (cents <? 10)%Z then "0" else EmptyString) +:+ of_int cents.

Definition size_units : list string := ["B"; "KB"; "MB"; "GB"; "TB"].

(** The loop [while size_value > 1024 and size_index < len(size_units) - 1].
    The value is held as an exact rational: that is the float of the code
    as long as the size is below 2^53, and the statements about it are made
    for such sizes. *)
Equations? scale_size (size_value : Q) (size_index : nat) : Q * nat
    by wf (List.length size_units - 1 - size_index)%nat lt :=
  scale_size size_value size_index with Qlt_le_dec 1024 size_value := {
    | right _ => (size_value, size_index)
    | left _ with lt_dec size_index (List.length size_units - 1) := {
        | right _ => (size_value, size_index)
        | left _ => scale_size (size_value / 1024) (size_index + 1)
      }
  }.
Proof. cbn in *. lia. Qed.

Section WithPlatform.
Context {case : CaseMethods} {platform : Platform}.

Definition display_file_info (filename : string) : M unit :=
  try_except
    (file_size <- os_path_getsize filename ;;
     mod_time <- os_path_getmtime filename ;;
     let scaled := scale_size (inject_Z file_size) 0 in
     let human_size :=
       format_2f (fst scaled) +:+ " " +:+ nth (snd scaled) size_units EmptyString in
     let mod_time_str := strftime_local mod_time in
     print (String LF "File Information:") ;;
     print ("Filename: " +:+ os_path_basename filename) ;;
     print ("Size: " +:+ human_size +:+ " (" +:+ of_int file_size +:+ " bytes)") ;;
     print ("Last modified: " +:+ mod_time_str) ;;
     full_path <- os_path_abspath filename ;;
     print ("Full path: " +:+ full_path))
    (fun e =>
       if isinstance e OSError then
         print ("Error retrieving file information: " +:+ str e)
       else raise e).

(** What the loop at the head of [main] needs to end: each turn takes a
    line of input, and neither check gives one back. *)
Lemma input_takes_line prompt w line w1 :
  input prompt w = (Return line, w1) -> stdin w = line :: stdin w1.
Proof.
  unfold input. destruct (stdin w) as [|l rest] eqn:Hin; [discriminate|].
  intros [= <- <-]. reflexivity.
Qed.

Lemma scan_keeps_stdin chars filename w :
  stdin (snd (scan_invalid_chars chars filename w)) = stdin w.
Proof.
  induction chars as [|c cs IH]; [reflexivity|]. cbn [scan_invalid_chars].
  destruct (contains c filename); [reflexivity | exact IH].
Qed.

Lemma validate_keeps_stdin filename w :
  stdin (snd (validate_filename filename w)) = stdin w.
Proof.
  unfold validate_filename. destruct (negb (truthy (strip filename))); [reflexivity|].
  apply scan_keeps_stdin.
Qed.

Lemma check_keeps_stdin filename mode w :
  stdin (snd (check_file_access filename mode w)) = stdin w.
Proof.
  unfold check_file_access, bind, ret, os_path_exists, os_path_isfile, os_access.
  repeat match goal with
         | |- context [if ?b then _ else _] => destruct b
         end; reflexivity.
Qed.

Definition inspect {A} (a : A) : {b : A | a = b} := exist _ a eq_refl.

(** The [while True] loop of [main]: [Some filename] when it is left by
    [break], [None] when it is left by [return]. *)
Equations? prompt_loop (w : World) : Res (option string) * World
    by wf (List.length (stdin w)) lt :=
  prompt_loop w
    with inspect (input (String LF "Enter the name of a file to read: ") w) := {
    | exist _ (Raise e, w1) _ => (Raise e, w1)
    | exist _ (Return filename, w1) Hinput
        with inspect (validate_filename filename w1) := {
        | exist _ (Raise e, w2) _ => (Raise e, w2)
        | exist _ (Return false, w2) Hvalid => prompt_loop w2
        | exist _ (Return true, w2) Hvalid
            with inspect (check_file_access filename "r" w2) := {
            | exist _ (Raise e, w3) _ => (Raise e, w3)
            | exist _ (Return (true, message), w3) _ => (Return (Some filename), w3)
            | exist _ (Return (false, message), w3) Hcheck
                with inspect ((print ("Error: " +:+ message) ;;
                               input "Try another file? (y/n): ") w3) := {
                | exist _ (Raise e, w4) _ => (Raise e, w4)
                | exist _ (Return retry, w4) Hretry =>
                    if negb (String.eqb (lower retry) "y") then
                      (print "Exiting program." ;; ret None) w4
                    else prompt_loop w4
              }
          }
      }
  }.
Proof.
  - apply input_takes_line in Hinput.
    pose proof (validate_keeps_stdin filename w1) as Hv. rewrite Hvalid in Hv.
    pose proof (check_keeps_stdin filename "r" w2) as Hc. rewrite Hcheck in Hc.
    cbn [snd] in Hv, Hc.
    unfold bind, print in Hretry. apply input_takes_line in Hretry.
    cbn [stdin emit] in Hretry.
    rewrite Hinput, <- Hv, <- Hc, Hretry. cbn. lia.
  - apply input_takes_line in Hinput.
    pose proof (validate_keeps_stdin filename w1) as Hv. rewrite Hvalid in Hv.
    cbn [snd] in Hv. rewrite Hinput, Hv. cbn. lia.
Qed.

(** A [try] with a [finally] clause that cannot fail. *)
Definition try_finally {A} (c : M A) (final : M unit) : M A :=
  fun w => let (r, w') := c w in (r, snd (final w')).

(** [x if content else 0]: both [None] and the empty string are falsy. *)
Definition if_content (content : option string) (x : string -> Z) : Z :=
  match content with
  | Some text => if truthy text then x text else 0
  | None => 0
  end.

Definition main : M unit :=
  print "=== Error Handling Lab ===" ;;
  print "This program demonstrates comprehensive error handling with files." ;;
  chosen <- prompt_loop ;;
  match chosen with
  | None => ret tt
  | Some filename =>
      try_finally
        (try_except
           (start_time <- time_time ;;
            content <- read_file_with_retries filename 3 1 ;;
            end_time <- time_time ;;
            display_file_info filename ;;
            let line_count := if_content content (fun text => count_char LF text + 1) in
            let word_count :=
              if_content content (fun text => Z.of_nat (List.length (split_whitespace text))) in
            let char_count := if_content content len in
            print (String LF "File Content Statistics:") ;;
            print ("Lines: " +:+ of_int line_count) ;;
            print ("Words: " +:+ of_int word_count) ;;
            print ("Characters: " +:+ of_int char_count) ;;
            print ("Read time: " +:+ elapsed_4f start_time end_time +:+ " seconds") ;;
            show_content <-
              input (String LF "Would you like to see the file content? (y/n): ") ;;
            if String.eqb (lower show_content) "y" then
              print (String LF "--- File Content Start ---") ;;
              match content with
              | Some text =>
                  if (500 <? len text)%Z then
                    print (String.substring 0 500 text +:+ "..."
                           +:+ String LF "[Content truncated]")
                  else print text
              | None =>
                  (* [len(None)] raises [TypeError], a direct subclass of
                     [Exception] *)
                  raise (mk_exn Exception "object of type 'NoneType' has no len()")
              end ;;
              print "--- File Content End ---"
            else ret tt)
           (fun e =>
              if isinstance e FileReadError then
                print ("File reading error: " +:+ str e)
              else if isinstance e Exception then
                print ("Unexpected error: " +:+ str e)
              else raise e))
        (print (String LF "Program finished."))
  end.

End WithPlatform.

(** A platform for running examples: time stands still, a text file has
    one byte per character, any other path has no metadata. *)
Definition still_platform : Platform :=
  {| timestamp := unit;
     time_time := ret tt;
     elapsed_4f := fun _ _ => "0.0000";
     os_path_getsize := fun path w =>
       match fs w !! path with
       | Some (File _ _ (Text s)) => (Return (len s), w)
       | _ => (Raise (mk_exn OSError (errno_text "[Errno 2] No such file or directory" path)), w)
       end;
     os_path_getmtime := fun path w => (Return tt, w);
     strftime_local := fun _ => "1970-01-01 00:00:00";
     os_path_abspath := fun path => ret ("/" +:+ path) |}.

End Error_handling_lab.

Import PyStr PyExn OS Error_handling Read_write.

(** ** Vocabulary of the statements *)

Definition world0 : World :=
  mk_world (<["." := Dir true true]> (<["notes.txt" := File true true (Text "hello")]> ∅))
           [] [] [] [].

Definition sep_free (sep : ascii) (piece : string) : Prop := contains sep piece = false.

Definition recognised (modification_type : string) : Prop :=
  modification_type ∈ ["uppercase"; "lowercase"; "capitalize_lines"; "reverse_lines"].

(** The first character of [chars], in list order, that occurs in the name. *)
Definition first_invalid (chars : list ascii) (filename : string) : option ascii :=
  List.find (fun c => contains c filename) chars.

Definition invalid_char_message (c : ascii) : string :=
  "Error: Filename contains invalid character '" +:+ String c "'.".

Definition msg_missing (filename : string) : string :=
  "The file '" +:+ filename +:+ "' does not exist.".
Definition msg_not_file (filename : string) : string :=
  "'" +:+ filename +:+ "' is not a file.".
Definition msg_unreadable (filename : string) : string :=
  "You don't have permission to read '" +:+ filename +:+ "'.".
Definition msg_unwritable (filename : string) : string :=
  "You don't have permission to write to '" +:+ filename +:+ "'.".
Definition msg_dir_unwritable (filename : string) : string :=
  "You don't have permission to write to the directory containing '" +:+ filename +:+ "'.".

(** The directory [check_file_access] asks about for a missing path. *)
Definition containing_directory (filename : string) : string :=
  str_or (os_path_dirname filename) ".".

Definition may_write (w : World) (path : string) : bool :=
  match fs w !! path with
  | Some n => permits n W_OK
  | None => false
  end.

Definition world_locked : World :=
  mk_world (<["." := Dir true false]> (<["secret.txt" := File false false (Text "x")]> ∅))
           [] [] [] [].

(** The fault the next [open] will meet, and the world it leaves. *)
Definition next_fault (w : World) : option exn :=
  match faults w with
  | Some e :: _ => Some e
  | _ => None
  end.

Definition after_open (path : string) (mode : open_mode) (w : World) : World :=
  snd (take_fault (log (EvOpen path mode) w)).

(** The texts the reader prints and raises. *)
Definition attempt_report (k max_retries : Z) (e : exn) : string :=
  "Error reading file (attempt " +:+ of_int k +:+ "/" +:+ of_int max_retries
  +:+ "): " +:+ str e.
Definition retry_notice (retry_delay : Z) : string :=
  "Retrying in " +:+ of_int retry_delay +:+ " second(s)...".
Definition exhausted_text (filename : string) (max_retries : Z) (e : exn) : string :=
  "Failed to read '" +:+ filename +:+ "' after " +:+ of_int max_retries
  +:+ " attempts. Last error: " +:+ str e.
Definition unexpected_text (filename : string) (e : exn) : string :=
  "Unexpected error reading '" +:+ filename +:+ "': " +:+ str e.

(** The text for each permanent cause. *)
Definition permanent_text (filename : string) (c : pyclass) : string :=
  match c with
  | FileNotFoundError => "The file '" +:+ filename +:+ "' was not found."
  | PermissionError => "Permission denied when trying to read '" +:+ filename +:+ "'."
  | UnicodeDecodeError =>
      "The file '" +:+ filename +:+
      "' contains characters that cannot be decoded. Try a different encoding."
  | IsADirectoryError => "'" +:+ filename +:+ "' is a directory, not a file."
  | _ => EmptyString
  end.

Definition permanent (c : pyclass) : bool :=
  match c with
  | FileNotFoundError | PermissionError | UnicodeDecodeError | IsADirectoryError => true
  | _ => false
  end.

(** A transient failure: an [OSError] outside the permanent subclasses. *)
Definition transient (e : exn) : bool :=
  isinstance e OSError && negb (permanent (exn_class e)).

(** What a run prints for the failed attempts [es], the counter standing
    at [attempts] before the first of them, each followed by a retry. *)
Fixpoint retry_lines (max_retries retry_delay attempts : Z) (es : list exn) : list string :=
  match es with
  | [] => []
  | e :: es' =>
      attempt_report (attempts + 1) max_retries e :: retry_notice retry_delay
        :: retry_lines max_retries retry_delay (attempts + 1) es'
  end.

(** The number of [open] calls in a log. *)
Fixpoint open_calls (tr : list event) : Z :=
  match tr with
  | [] => 0
  | EvOpen _ _ :: tr' => 1 + open_calls tr'
  | _ :: tr' => open_calls tr'
  end.

(** The number of [time.sleep] calls in a log. *)
Fixpoint sleep_calls (tr : list event) : Z :=
  match tr with
  | [] => 0
  | EvSleep _ :: tr' => 1 + sleep_calls tr'
  | _ :: tr' => sleep_calls tr'
  end.

Definition all_transient (es : list exn) : Prop := Forall (fun e => transient e = true) es.

(** The outcomes the contract allows: a string, or a [FileReadError]. *)
Definition classified (r : Res (option string)) : Prop :=
  (exists content, r = Return (Some content)) \/ (exists text, r = Raise (read_error text)).

Definition eio : exn := mk_exn OSError "[Errno 5] Input/output error".

Definition write_diagnostic (filename : string) (e : exn) : string :=
  if isinstance e PermissionError then
    "Error: You don't have permission to write to '" +:+ filename +:+ "'."
  else "Unexpected error writing to '" +:+ filename +:+ "': " +:+ str e.

Definition is_write_open (ev : event) : bool :=
  match ev with
  | EvOpen _ ModeW => true
  | _ => false
  end.

(** The line [read_file] prints for a failed read. *)
Definition read_diagnostic (filename : string) (e : exn) : string :=
  if isinstance e FileNotFoundError then
    "Error: The file '" +:+ filename +:+ "' was not found."
  else if isinstance e PermissionError then
    "Error: You don't have permission to read '" +:+ filename +:+ "'."
  else "Unexpected error reading '" +:+ filename +:+ "': " +:+ str e.

(** The file table of [w'] agrees with that of [w] outside [path]. *)
Definition same_except (path : string) (w w' : World) : Prop :=
  forall p, p <> path -> fs w' !! p = fs w !! p.

(** The entry is a directory. *)
Definition is_dir (n : option node) : bool :=
  match n with
  | Some (Dir _ _) => true
  | _ => false
  end.

(** Whether [open(path, 'w')] goes through when no fault is injected: an
    existing regular file must be writable, a missing one needs a name a
    file can be created under and a writable directory to be created in. *)
Definition write_goes_through (w : World) (path : string) : bool :=
  match fs w !! path with
  | Some (File _ wr _) => wr
  | Some (Dir _ _) => false
  | None =>
      match create_error (fs w) path with
      | None => true
      | Some _ => false
      end
  end.

(** [w'] is [w] after some [open] and [sleep] calls and some printing: the
    file table and the keyboard input are the same, the console and the
    log have only grown. *)
Definition only_observed (w w' : World) : Prop :=
  fs w' = fs w /\ stdin w' = stdin w
  /\ (exists lines, stdout w' = (stdout w ++ lines)%list)
  /\ (exists calls, trace w' = (trace w ++ calls)%list).

(** The kind each menu entry stands for. *)
Definition kind_of_choice (choice : string) : string :=
  if String.eqb choice "1" then "uppercase"
  else if String.eqb choice "2" then "lowercase"
  else if String.eqb choice "3" then "capitalize_lines"
  else if String.eqb choice "4" then "reverse_lines"
  else "uppercase".

(** The characters of the pieces, one more for each piece. *)
Definition padded_length (pieces : list string) : nat :=
  list_sum (map (fun piece => S (String.length piece)) pieces).

(** [w'] differs from [w] by console traffic and by system calls other
    than [open]: same file table, same pending faults, as many [open]
    calls. *)
Definition quiet (w w' : World) : Prop :=
  fs w' = fs w /\ faults w' = faults w
  /\ open_calls (trace w') = open_calls (trace w).

Definition eof_error : exn := mk_exn EOFError "EOF when reading a line".

(** What the prompt loop of the lab promises about its outcome. *)
Definition gate_post (w : World) (out : Res (option string) * World) : Prop :=
  quiet w (snd out)
  /\ (forall filename, fst out = Return (Some filename) ->
        fst (validate_filename filename w) = Return true
        /\ exists wr data, fs w !! filename = Some (File true wr data))
  /\ (fst out = Return None -> last (stdout (snd out)) = Some "Exiting program.")
  /\ (forall e, fst out = Raise e -> e = eof_error /\ stdin (snd out) = []).

(** A computation that leaves the file table as it found it. *)
Definition keeps_files {A} (c : M A) : Prop := forall w, fs (snd (c w)) = fs w.

(** A platform whose clock and metadata queries only look. *)
Definition observing (platform : Error_handling_lab.Platform) : Prop :=
  keeps_files Error_handling_lab.time_time
  /\ (forall path, keeps_files (Error_handling_lab.os_path_getsize path))
  /\ (forall path, keeps_files (Error_handling_lab.os_path_getmtime path))
  /\ (forall path, keeps_files (Error_handling_lab.os_path_abspath path)).

(** The size line of the file report. *)
Definition size_line (file_size : Z) : string :=
  "Size: "
  +:+ (Error_handling_lab.format_2f
         (fst (Error_handling_lab.scale_size (inject_Z file_size) 0))
       +:+ " "
       +:+ nth (snd (Error_handling_lab.scale_size (inject_Z file_size) 0))
             Error_handling_lab.size_units EmptyString)
  +:+ " (" +:+ of_int file_size +:+ " bytes)".

(** A world with a writable directory [docs]. *)
Definition CR : ascii := "013"%char.

(** The bytes a name takes in UTF-8; a directory entry holds 255 at most. *)
Definition encoded_length (name : string) : nat :=
  list_sum ((fun c => if (nat_of_ascii c <? 128)%nat then 1%nat else 2%nat)
              <$> list_ascii_of_string name).

Definition name_fits (name : string) : bool := (encoded_length name <=? 255)%nat.

(** A plain file name: not empty, short enough, with no NUL character and
    no slash, and neither of the two names every directory holds. *)
Definition plain_name (name : string) : bool :=
  truthy name && negb (contains NUL name) && negb (contains "/"%char name)
  && negb (String.eqb name ".") && negb (String.eqb name "..") && name_fits name.

Definition world_dir : World :=
  mk_world (<["." := Dir true true]> (<["docs" := Dir true true]> ∅)) [] [] [] [].

(** ** Running the model *)

Example ex_reverse :
  @modify_content ascii_case ("line1" +:+ String LF "line2" +:+ String LF "line3") "reverse_lines"
  = "line3" +:+ String LF "line2" +:+ String LF "line1".
Proof. vm_compute. reflexivity. Qed.

Example ex_of_int : of_int (-12) = "-12" /\ of_int 0 = "0" /\ strip "  a b  " = "a b".
Proof. vm_compute. auto. Qed.

Example ex_read : fst (read_file_with_retries "notes.txt" 3 1 world0) = Return (Some "hello").
Proof. vm_compute. reflexivity. Qed.

Example ex_capitalize :
  @modify_content ascii_case ("hello" +:+ String LF "wORLD") "capitalize_lines"
  = "Hello" +:+ String LF "World".
Proof. vm_compute. reflexivity. Qed.

Example ex_dirname :
  os_path_dirname "out.txt" = EmptyString /\ os_path_dirname "a/b.txt" = "a"
  /\ os_path_dirname "/b.txt" = "/" /\ os_path_dirname "a//b" = "a".
Proof. vm_compute. auto. Qed.

Example ex_write_then_read :
  fst (read_file_with_retries "out.txt" 3 1 (snd (write_file "out.txt" "HELLO" world0)))
  = Return (Some "HELLO").
Proof. vm_compute. reflexivity. Qed.

Example ex_read_below_file :
  fst (read_file_with_retries "notes.txt/x" 1 1 world0)
  = Raise (read_error ("Failed to read 'notes.txt/x' after 1 attempts. "
                       +:+ "Last error: [Errno 20] Not a directory: 'notes.txt/x'")).
Proof. vm_compute. reflexivity. Qed.

Example ex_read_nul :
  fst (read_file_with_retries (String NUL "a") 3 1 world0)
  = Raise (read_error ("Unexpected error reading '" +:+ String NUL "a"
                       +:+ "': embedded null byte")).
Proof. vm_compute. reflexivity. Qed.

Example ex_write_no_name :
  write_file EmptyString "x" world0
  = (Return false,
     emit "Unexpected error writing to '': [Errno 2] No such file or directory: ''"
       (after_open EmptyString ModeW world0)).
Proof. vm_compute. reflexivity. Qed.

Example ex_write_trailing_slash :
  fst (open_write "new/" "x" world0)
  = Raise (mk_exn IsADirectoryError "[Errno 21] Is a directory: 'new/'").
Proof. vm_compute. reflexivity. Qed.

(** ** Splitting and joining lines *)

Section SplitJoin.
Variable sep : ascii.

Lemma split_not_nil s : split sep s <> [].
Proof.
  induction s as [|a s IH]; simpl; [discriminate|].
  destruct (Ascii.eqb a sep); [discriminate|].
  destruct (split sep s); discriminate.
Qed.

Lemma split_sep_free s : Forall (sep_free sep) (split sep s).
Proof.
  induction s as [|a s IH]; simpl.
  - repeat constructor.
  - destruct (Ascii.eqb a sep) eqn:Ha.
    + constructor; [reflexivity | exact IH].
    + pose proof (split_not_nil s) as Hne.
      destruct (split sep s) as [|p ps]; [congruence|].
      inversion IH; subst. constructor; [|assumption].
      unfold sep_free in *. simpl.
      rewrite Ascii.eqb_sym, Ha. assumption.
Qed.

Lemma join_split s : join (String sep EmptyString) (split sep s) = s.
Proof.
  induction s as [|a s IH]; simpl; [reflexivity|].
  destruct (Ascii.eqb a sep) eqn:Ha.
  - apply Ascii.eqb_eq in Ha. subst a.
    destruct (split sep s) as [|p ps] eqn:Hs; [contradiction (split_not_nil s)|].
    simpl in *. rewrite IH. reflexivity.
  - destruct (split sep s) as [|p ps] eqn:Hs; [contradiction (split_not_nil s)|].
    destruct ps; simpl in *; rewrite <- IH; reflexivity.
Qed.

Lemma split_sep_free_piece p : sep_free sep p -> split sep p = [p].
Proof.
  unfold sep_free. induction p as [|a p IH]; simpl; [reflexivity|].
  rewrite Ascii.eqb_sym. destruct (Ascii.eqb a sep); [discriminate|].
  intros H. rewrite (IH H). reflexivity.
Qed.

Lemma split_piece_then_sep p t :
  sep_free sep p -> split sep (p +:+ String sep t) = p :: split sep t.
Proof.
  unfold sep_free. induction p as [|a p IH]; simpl.
  - rewrite Ascii.eqb_refl. reflexivity.
  - rewrite Ascii.eqb_sym. destruct (Ascii.eqb a sep); [discriminate|].
    intros H. rewrite (IH H). reflexivity.
Qed.

Lemma split_join pieces :
  pieces <> [] -> Forall (sep_free sep) pieces ->
  split sep (join (String sep EmptyString) pieces) = pieces.
Proof.
  induction pieces as [|p ps IH]; [congruence|].
  intros _ Hfree. inversion Hfree as [|? ? Hp Hps]; subst.
  destruct ps as [|q qs].
  - simpl. apply split_sep_free_piece, Hp.
  - change (join (String sep EmptyString) (p :: q :: qs))
      with (p +:+ String sep (join (String sep EmptyString) (q :: qs))).
    rewrite split_piece_then_sep by assumption.
    rewrite IH by (assumption || discriminate). reflexivity.
Qed.

Lemma join_empty_inv pieces :
  pieces <> [] -> join (String sep EmptyString) pieces = EmptyString -> pieces = [EmptyString].
Proof.
  destruct pieces as [|p [|q qs]]; simpl; try congruence.
  destruct p; discriminate.
Qed.
End SplitJoin.

Lemma truthy_false_inv s : truthy s = false -> s = EmptyString.
Proof. destruct s; [reflexivity | discriminate]. Qed.

(** [C6] [modify_content] is a function from [(content, kind)] to a string,
    with no world and no exception in its type.  The default kind is
    ["uppercase"], and on content that is not empty that kind gives
    [content.upper()]; every kind outside the four named ones gives
    [content.upper()] as well, hence the result of ["uppercase"]; the empty
    content gives the empty string for every kind, without a call of a
    case method. *)
Theorem C6_modify_content_total `{CaseMethods} (content kind : string) :
  default_modification_type = "uppercase"
  /\ (truthy content = true ->
      modify_content content default_modification_type = upper content)
  /\ (truthy content = true -> ~ recognised kind ->
      modify_content content kind = upper content)
  /\ (~ recognised kind -> modify_content content kind = modify_content content "uppercase")
  /\ modify_content EmptyString kind = EmptyString.
Proof.
  assert (Hother : ~ recognised kind ->
            String.eqb kind "lowercase" = false
            /\ String.eqb kind "capitalize_lines" = false
            /\ String.eqb kind "reverse_lines" = false).
  { intros Hkind. repeat split; apply String.eqb_neq; intros ->; apply Hkind;
      unfold recognised; set_solver. }
  split; [reflexivity|]. split; [|split; [|split; [|reflexivity]]].
  - intros Hc. unfold modify_content, default_modification_type. rewrite Hc. reflexivity.
  - intros Hc Hkind. destruct (Hother Hkind) as (E2 & E3 & E4).
    unfold modify_content. rewrite Hc, E2, E3, E4. cbn [negb].
    destruct (String.eqb kind "uppercase"); reflexivity.
  - intros Hkind. destruct (Hother Hkind) as (E2 & E3 & E4).
    unfold modify_content. rewrite E2, E3, E4.
    change (String.eqb "uppercase" "uppercase") with true. cbv iota.
    destruct (negb (truthy content)); [reflexivity|].
    destruct (String.eqb kind "uppercase"); reflexivity.
Qed.

Lemma C6_witness :
  ~ recognised "title" /\ @modify_content ascii_case "abc" "title" = "ABC".
Proof.
  assert (Hk : ~ recognised "title").
  { unfold recognised. intros Hin.
    repeat (apply elem_of_cons in Hin as [Hin|Hin]; [discriminate Hin|]).
    inversion Hin. }
  split; [exact Hk|].
  exact (proj1 (proj2 (proj2 (@C6_modify_content_total ascii_case "abc" "title")))
           eq_refl Hk).
Defined.

(** [C7] Reversing the lines twice gives back the content, for every
    string. *)
Theorem C7_reverse_lines_twice `{CaseMethods} (s : string) :
  modify_content (modify_content s "reverse_lines") "reverse_lines" = s.
Proof.
  unfold modify_content.
  change (String.eqb "reverse_lines" "uppercase") with false.
  change (String.eqb "reverse_lines" "lowercase") with false.
  change (String.eqb "reverse_lines" "capitalize_lines") with false.
  change (String.eqb "reverse_lines" "reverse_lines") with true.
  cbv iota. rewrite map_id.
  destruct (truthy s) eqn:Hs; simpl; [|symmetry; apply truthy_false_inv, Hs].
  assert (Hne : rev (split LF s) <> []).
  { intros Hnil. apply (split_not_nil LF s).
    rewrite <- (rev_involutive (split LF s)), Hnil. reflexivity. }
  assert (Hfree : Forall (sep_free LF) (rev (split LF s))).
  { apply List.Forall_rev, split_sep_free. }
  destruct (truthy (join (String LF EmptyString) (rev (split LF s)))) eqn:Hr; simpl.
  - rewrite map_id, split_join by assumption.
    rewrite rev_involutive. apply join_split.
  - apply truthy_false_inv in Hr.
    apply join_empty_inv in Hr; [|assumption].
    rewrite <- (join_split LF s), <- (rev_involutive (split LF s)), Hr.
    reflexivity.
Qed.

(** ** The filename validator *)

Lemma rstrip_truthy c s : contains c s = true -> isspace c = false -> truthy (rstrip s) = true.
Proof.
  intros Hc Hsp. induction s as [|a s IH]; simpl in *; [discriminate|].
  destruct (Ascii.eqb c a) eqn:Hca.
  - apply Ascii.eqb_eq in Hca. subst a. rewrite Hsp.
    destruct (rstrip s); reflexivity.
  - specialize (IH Hc). destruct (rstrip s); [discriminate | reflexivity].
Qed.

Lemma lstrip_contains c s : contains c s = true -> isspace c = false -> contains c (lstrip s) = true.
Proof.
  intros Hc Hsp. induction s as [|a s IH]; simpl in *; [discriminate|].
  destruct (isspace a) eqn:Ha.
  - destruct (Ascii.eqb c a) eqn:Hca; [|auto].
    apply Ascii.eqb_eq in Hca. congruence.
  - simpl. assumption.
Qed.

Lemma strip_truthy c s : contains c s = true -> isspace c = false -> truthy (strip s) = true.
Proof.
  intros Hc Hsp. unfold strip. apply (rstrip_truthy c); [apply lstrip_contains|]; assumption.
Qed.

Lemma invalid_chars_not_space : Forall (fun c => isspace c = false) invalid_chars.
Proof. repeat constructor. Qed.

Lemma scan_invalid_chars_spec chars filename w :
  scan_invalid_chars chars filename w =
    match first_invalid chars filename with
    | Some c => (Return false, emit (invalid_char_message c) w)
    | None => (Return true, w)
    end.
Proof.
  induction chars as [|c cs IH]; simpl; [reflexivity|].
  destruct (contains c filename); [reflexivity | exact IH].
Qed.

Lemma first_invalid_some chars filename c :
  c ∈ chars -> contains c filename = true ->
  exists c0, first_invalid chars filename = Some c0.
Proof.
  intros Hin Hc. unfold first_invalid.
  destruct (List.find _ chars) eqn:Hf; [eauto|].
  apply list_elem_of_In in Hin.
  pose proof (List.find_none _ _ Hf c Hin) as Hn. simpl in Hn. congruence.
Qed.

Lemma first_invalid_none chars filename :
  (forall c, c ∈ chars -> contains c filename = false) ->
  first_invalid chars filename = None.
Proof.
  intros Hfree. unfold first_invalid.
  destruct (List.find _ chars) eqn:Hf; [|reflexivity].
  apply List.find_some in Hf as [Hin Hc]. apply list_elem_of_In in Hin.
  rewrite (Hfree _ Hin) in Hc. discriminate.
Qed.

(** [C4], amended.  A name holding a character of the fixed list is
    refused, and the one message printed names the first such character in
    list order.  A name that is still non-empty once the white space at
    both ends is stripped, and holds none of these characters, is accepted
    without output. *)
Theorem C4_validate_filename (filename : string) (w : World) :
  (forall c, c ∈ invalid_chars -> contains c filename = true ->
     exists c0, first_invalid invalid_chars filename = Some c0
       /\ validate_filename filename w = (Return false, emit (invalid_char_message c0) w))
  /\ (strip filename <> EmptyString ->
      (forall c, c ∈ invalid_chars -> contains c filename = false) ->
      validate_filename filename w = (Return true, w)).
Proof.
  split.
  - intros c Hin Hc.
    destruct (first_invalid_some _ _ _ Hin Hc) as [c0 Hc0].
    exists c0. split; [exact Hc0|].
    unfold validate_filename.
    rewrite (strip_truthy c filename Hc).
    + cbn [negb]. rewrite scan_invalid_chars_spec, Hc0. reflexivity.
    + pose proof invalid_chars_not_space as Hsp.
      rewrite List.Forall_forall in Hsp. apply Hsp, list_elem_of_In, Hin.
  - intros Hne Hfree. unfold validate_filename.
    destruct (strip filename) eqn:Hs; [congruence|]. cbn [truthy negb].
    rewrite scan_invalid_chars_spec, first_invalid_none by assumption. reflexivity.
Qed.

Lemma C4_witness :
  validate_filename "a<b:c" world0
    = (Return false, emit "Error: Filename contains invalid character '<'." world0)
  /\ validate_filename "notes.txt" world0 = (Return true, world0).
Proof.
  split.
  - destruct (proj1 (C4_validate_filename "a<b:c" world0) ":"%char) as [c0 [Hc0 Hrun]].
    + unfold invalid_chars. set_solver.
    + reflexivity.
    + vm_compute in Hc0. injection Hc0 as <-. exact Hrun.
  - apply (proj2 (C4_validate_filename "notes.txt" world0)).
    + vm_compute. discriminate.
    + intros c Hin. unfold invalid_chars in Hin.
      repeat (apply elem_of_cons in Hin as [->|Hin]; [reflexivity|]).
      inversion Hin.
Defined.

(** [C4] as first stated fails: a name made of one space is non-empty and
    holds no forbidden character, yet it is refused as empty. *)
Lemma C4_counterexample :
  " " <> EmptyString
  /\ (forall c, c ∈ invalid_chars -> contains c " " = false)
  /\ validate_filename " " world0
     = (Return false, emit "Error: Filename cannot be empty." world0).
Proof.
  split; [discriminate|]. split; [|reflexivity].
  intros c Hin. unfold invalid_chars in Hin.
  repeat (apply elem_of_cons in Hin as [->|Hin]; [reflexivity|]).
  inversion Hin.
Qed.

(** ** The access checker *)

Lemma exists_some {A} (x : A) : bool_decide (is_Some (Some x)) = true.
Proof. apply bool_decide_eq_true_2. eauto. Qed.

Lemma exists_none {A} : bool_decide (is_Some (@None A)) = false.
Proof. apply bool_decide_eq_false_2. intros [? ?]. discriminate. Qed.

Ltac run_checker Hfs :=
  unfold check_file_access, bind, ret, os_path_exists, os_path_isfile, os_access;
  cbn [String.eqb Ascii.eqb Bool.eqb];
  repeat (cbn beta iota delta [fs log negb]; rewrite ?Hfs, ?exists_some, ?exists_none).

Lemma check_read_missing filename w :
  fs w !! filename = None ->
  check_file_access filename "r" w
    = (Return (false, msg_missing filename), log (EvStat filename) w).
Proof. intros Hfs. run_checker Hfs. reflexivity. Qed.

Lemma check_read_not_file filename w r wr :
  fs w !! filename = Some (Dir r wr) ->
  check_file_access filename "r" w
    = (Return (false, msg_not_file filename),
       log (EvStat filename) (log (EvStat filename) w)).
Proof. intros Hfs. run_checker Hfs. reflexivity. Qed.

Lemma check_read_file filename w r wr d :
  fs w !! filename = Some (File r wr d) ->
  check_file_access filename "r" w
    = (Return (r, if r then passed else msg_unreadable filename),
       log (EvAccess filename R_OK) (log (EvStat filename) (log (EvStat filename) w))).
Proof. intros Hfs. run_checker Hfs. destruct r; reflexivity. Qed.

Lemma check_write_existing filename w n :
  fs w !! filename = Some n ->
  check_file_access filename "w" w
    = (Return (permits n W_OK, if permits n W_OK then passed else msg_unwritable filename),
       log (EvAccess filename W_OK) (log (EvStat filename) w)).
Proof. intros Hfs. run_checker Hfs. destruct (permits n W_OK); reflexivity. Qed.

Lemma check_write_missing filename w :
  fs w !! filename = None ->
  check_file_access filename "w" w
    = (Return (may_write w (containing_directory filename),
               if may_write w (containing_directory filename) then passed
               else msg_dir_unwritable filename),
       log (EvAccess (containing_directory filename) W_OK) (log (EvStat filename) w)).
Proof.
  intros Hfs. run_checker Hfs.
  unfold may_write, containing_directory.
  destruct (fs w !! str_or (os_path_dirname filename) ".") as [n|]; [|reflexivity].
  destruct (permits n W_OK); reflexivity.
Qed.

Lemma dirname_bare filename :
  contains "/"%char filename = false -> containing_directory filename = ".".
Proof.
  intros Hbare. unfold containing_directory, os_path_dirname.
  destruct filename as [|a s]; [reflexivity|].
  unfold head_to_last_slash. rewrite Hbare. reflexivity.
Qed.

Lemma dirname_no_slash p : contains "/"%char p = false -> os_path_dirname p = EmptyString.
Proof.
  intros Hbare. unfold os_path_dirname.
  destruct p as [|a s]; [reflexivity|].
  unfold head_to_last_slash. rewrite Hbare. reflexivity.
Qed.

Lemma below_file_bare table p :
  contains "/"%char p = false -> below_file table p = false.
Proof.
  intros Hbare. unfold below_file.
  destruct (String.length p); cbn [below_file_from]; [reflexivity|].
  rewrite (dirname_no_slash _ Hbare). reflexivity.
Qed.

Lemma rstrip_slash_bare p : contains "/"%char p = false -> rstrip_slash p = p.
Proof.
  induction p as [|a s IH]; [reflexivity|]. cbn [contains rstrip_slash].
  destruct (Ascii.eqb_spec "/"%char a) as [|Hne]; [discriminate|].
  cbn [orb]. intros Hs. rewrite (IH Hs).
  destruct s; [|reflexivity].
  destruct (Ascii.eqb_spec a "/"%char); [congruence | reflexivity].
Qed.

Lemma plain_name_parts name :
  plain_name name = true ->
  truthy name = true /\ contains NUL name = false /\ contains "/"%char name = false.
Proof.
  unfold plain_name. intros H.
  repeat (apply andb_prop in H as [H ?]).
  repeat split; try assumption; apply negb_true_iff; assumption.
Qed.

(** For a plain name only the current directory decides whether the file
    can be created. *)
Lemma create_error_plain table name :
  plain_name name = true ->
  create_error table name =
    match table !! "." with
    | None =>
        Some (mk_exn FileNotFoundError
                (errno_text "[Errno 2] No such file or directory" name))
    | Some (File _ _ _) =>
        Some (mk_exn NotADirectoryError (errno_text "[Errno 20] Not a directory" name))
    | Some (Dir _ false) =>
        Some (mk_exn PermissionError (errno_text "[Errno 13] Permission denied" name))
    | Some (Dir _ true) => None
    end.
Proof.
  intros Hplain. destruct (plain_name_parts _ Hplain) as (Hne & Hnul & Hbare).
  unfold create_error, ends_with_slash.
  rewrite Hnul, (below_file_bare _ _ Hbare), Hne, (rstrip_slash_bare _ Hbare), String.eqb_refl.
  cbn [orb negb]. rewrite (dirname_no_slash _ Hbare).
  change (str_or EmptyString ".") with ".".
  destruct (table !! ".") as [[|? []]|]; reflexivity.
Qed.

Lemma check_other_mode filename mode w :
  mode <> "r" -> mode <> "w" ->
  check_file_access filename mode w = (Return (true, passed), w).
Proof.
  intros Hr Hw. unfold check_file_access.
  apply String.eqb_neq in Hr, Hw. rewrite Hr, Hw. reflexivity.
Qed.

Lemma check_keeps_world filename mode w :
  let w' := snd (check_file_access filename mode w) in
  fs w' = fs w /\ faults w' = faults w /\ stdin w' = stdin w /\ stdout w' = stdout w.
Proof.
  destruct (String.eqb_spec mode "r") as [->|Hr].
  - destruct (fs w !! filename) as [[r wr d|r wr]|] eqn:Hfs.
    + rewrite (check_read_file _ _ _ _ _ Hfs). repeat split.
    + rewrite (check_read_not_file _ _ _ _ Hfs). repeat split.
    + rewrite (check_read_missing _ _ Hfs). repeat split.
  - destruct (String.eqb_spec mode "w") as [->|Hw].
    + destruct (fs w !! filename) as [n|] eqn:Hfs.
      * rewrite (check_write_existing _ _ _ Hfs). repeat split.
      * rewrite (check_write_missing _ _ Hfs). repeat split.
    + rewrite check_other_mode by assumption. repeat split.
Qed.

(** [C5] In read mode the checks run in the order: missing path, not a
    regular file, no read permission; the first failing one decides, each
    with its own message, and later calls are not made.  In write mode an
    existing path is asked for write permission, a missing one for write
    permission on its directory, which is ["."] for a bare name.  Every
    other case passes.  The file table and the console are left as they
    were, whatever the mode. *)
Theorem C5_check_file_access (filename : string) (w : World) :
  (fs w !! filename = None ->
     check_file_access filename "r" w
       = (Return (false, msg_missing filename), log (EvStat filename) w))
  /\ (forall r wr, fs w !! filename = Some (Dir r wr) ->
     check_file_access filename "r" w
       = (Return (false, msg_not_file filename),
          log (EvStat filename) (log (EvStat filename) w)))
  /\ (forall r wr d, fs w !! filename = Some (File r wr d) ->
     check_file_access filename "r" w
       = (Return (r, if r then passed else msg_unreadable filename),
          log (EvAccess filename R_OK)
            (log (EvStat filename) (log (EvStat filename) w))))
  /\ (msg_missing filename <> msg_not_file filename
      /\ msg_missing filename <> msg_unreadable filename
      /\ msg_not_file filename <> msg_unreadable filename)
  /\ (forall n, fs w !! filename = Some n ->
     check_file_access filename "w" w
       = (Return (permits n W_OK,
                  if permits n W_OK then passed else msg_unwritable filename),
          log (EvAccess filename W_OK) (log (EvStat filename) w)))
  /\ (fs w !! filename = None ->
     check_file_access filename "w" w
       = (Return (may_write w (containing_directory filename),
                  if may_write w (containing_directory filename) then passed
                  else msg_dir_unwritable filename),
          log (EvAccess (containing_directory filename) W_OK)
            (log (EvStat filename) w)))
  /\ (contains "/"%char filename = false -> containing_directory filename = ".")
  /\ (forall mode,
        let w' := snd (check_file_access filename mode w) in
        fs w' = fs w /\ faults w' = faults w /\ stdin w' = stdin w /\ stdout w' = stdout w).
Proof.
  split; [apply check_read_missing|].
  split; [intros; eapply check_read_not_file; eassumption|].
  split; [intros; eapply check_read_file; eassumption|].
  split; [repeat split; discriminate|].
  split; [intros; eapply check_write_existing; eassumption|].
  split; [apply check_write_missing|].
  split; [apply dirname_bare|].
  intros mode. apply check_keeps_world.
Qed.

Lemma C5_witness :
  check_file_access "absent.txt" "r" world_locked
    = (Return (false, "The file 'absent.txt' does not exist."),
       log (EvStat "absent.txt") world_locked)
  /\ fst (check_file_access "." "r" world_locked) = Return (false, "'.' is not a file.")
  /\ fst (check_file_access "secret.txt" "r" world_locked)
     = Return (false, "You don't have permission to read 'secret.txt'.")
  /\ fst (check_file_access "secret.txt" "w" world_locked)
     = Return (false, "You don't have permission to write to 'secret.txt'.")
  /\ fst (check_file_access "absent.txt" "w" world_locked)
     = Return (false,
         "You don't have permission to write to the directory containing 'absent.txt'.")
  /\ containing_directory "absent.txt" = ".".
Proof.
  pose proof (C5_check_file_access "absent.txt" world_locked)
    as (Hmiss & _ & _ & _ & _ & Hwmiss & Hdir & _).
  pose proof (C5_check_file_access "." world_locked) as (_ & Hnf & _).
  pose proof (C5_check_file_access "secret.txt" world_locked)
    as (_ & _ & Hrd & _ & Hwr & _).
  split; [apply Hmiss; reflexivity|].
  split; [rewrite (Hnf true false) by reflexivity; reflexivity|].
  split; [rewrite (Hrd false false (Text "x")) by reflexivity; reflexivity|].
  split; [rewrite (Hwr (File false false (Text "x"))) by reflexivity; reflexivity|].
  split; [rewrite Hwmiss by reflexivity; reflexivity|].
  apply Hdir. reflexivity.
Defined.

(** [C10] With a mode that is neither ["r"] nor ["w"] the check passes for
    every filename, and the world is returned as it was: no system call is
    logged, so the file table is not consulted. *)
Theorem C10_unknown_mode_passes (filename mode : string) (w : World) :
  mode <> "r" -> mode <> "w" ->
  check_file_access filename mode w = (Return (true, "File access check passed."), w).
Proof. apply check_other_mode. Qed.

Lemma C10_witness :
  check_file_access "absent.txt" "a" world_locked
    = (Return (true, "File access check passed."), world_locked).
Proof. apply C10_unknown_mode_passes; discriminate. Defined.

(** ** The bounded-retry reader *)

(** *** One call of [open] *)

Lemma after_open_frame path mode w :
  fs (after_open path mode w) = fs w
  /\ stdin (after_open path mode w) = stdin w
  /\ stdout (after_open path mode w) = stdout w
  /\ trace (after_open path mode w) = (trace w ++ [EvOpen path mode])%list
  /\ faults (after_open path mode w) = tail (faults w).
Proof.
  unfold after_open, take_fault. cbn [faults log].
  destruct (faults w) eqn:Hq; cbn; rewrite ?Hq; auto.
Qed.

Lemma open_read_fault path w e :
  next_fault w = Some e -> open_read path w = (Raise e, after_open path ModeR w).
Proof.
  unfold next_fault, open_read, after_open, take_fault. cbn [faults log].
  destruct (faults w) as [|[e'|] q]; try discriminate.
  intros [= ->]. reflexivity.
Qed.

Lemma open_read_clean path w :
  next_fault w = None ->
  open_read path w =
    (match fs w !! path with
     | None => Raise (lookup_error (fs w) path)
     | Some (Dir _ _) => Raise (mk_exn IsADirectoryError
                                  (errno_text "[Errno 21] Is a directory" path))
     | Some (File false _ _) => Raise (mk_exn PermissionError
                                         (errno_text "[Errno 13] Permission denied" path))
     | Some (File true _ Undecodable) =>
         Raise (mk_exn UnicodeDecodeError
                  "'utf-8' codec can't decode byte 0xff in position 0: invalid start byte")
     | Some (File true _ (Text s)) => Return s
     end, after_open path ModeR w).
Proof.
  unfold next_fault, open_read, after_open, take_fault. cbn [faults log].
  destruct (faults w) as [|[e'|] q]; try discriminate; intros _; cbn [fs log set_faults snd];
    destruct (fs w !! path) as [[[] ? []|]|]; reflexivity.
Qed.

(** *** One turn of the loop *)

Lemma attempt_loop_eq filename max_retries retry_delay attempts last_error :
  attempt_loop filename max_retries retry_delay attempts last_error =
    if Z_lt_dec attempts max_retries then
      try_except
        (content <- open_read filename ;; ret (Some content))
        (fun e =>
           if isinstance e FileNotFoundError then
             raise (read_error ("The file '" +:+ filename +:+ "' was not found."))
           else if isinstance e PermissionError then
             raise (read_error ("Permission denied when trying to read '"
                                +:+ filename +:+ "'."))
           else if isinstance e UnicodeDecodeError then
             raise (read_error ("The file '" +:+ filename +:+
               "' contains characters that cannot be decoded. Try a different encoding."))
           else if isinstance e IsADirectoryError then
             raise (read_error ("'" +:+ filename +:+ "' is a directory, not a file."))
           else if isinstance e IOError || isinstance e OSError then
             print ("Error reading file (attempt " +:+ of_int (attempts + 1) +:+ "/"
                    +:+ of_int max_retries +:+ "): " +:+ str e) ;;
             if (attempts + 1 <? max_retries)%Z then
               print ("Retrying in " +:+ of_int retry_delay +:+ " second(s)...") ;;
               time_sleep retry_delay ;;
               attempt_loop filename max_retries retry_delay (attempts + 1) (Some (str e))
             else
               raise (read_error ("Failed to read '" +:+ filename +:+ "' after "
                                  +:+ of_int max_retries +:+ " attempts. Last error: "
                                  +:+ str e))
           else
             raise (read_error ("Unexpected error reading '" +:+ filename +:+ "': "
                                +:+ str e)))
    else ret None.
Proof.
  rewrite attempt_loop_equation_1.
  destruct (Z_lt_dec attempts max_retries); reflexivity.
Qed.

Lemma attempt_exit filename max_retries retry_delay attempts last_error w :
  max_retries <= attempts ->
  attempt_loop filename max_retries retry_delay attempts last_error w = (Return None, w).
Proof.
  intros Hge. rewrite attempt_loop_eq.
  destruct (Z_lt_dec attempts max_retries); [lia | reflexivity].
Qed.

Lemma attempt_ok filename max_retries retry_delay attempts last_error w content w1 :
  attempts < max_retries ->
  open_read filename w = (Return content, w1) ->
  attempt_loop filename max_retries retry_delay attempts last_error w
    = (Return (Some content), w1).
Proof.
  intros Hlt Hopen. rewrite attempt_loop_eq.
  destruct (Z_lt_dec attempts max_retries); [|lia].
  unfold try_except, bind. rewrite Hopen. reflexivity.
Qed.

Lemma attempt_permanent filename max_retries retry_delay attempts last_error w e w1 :
  attempts < max_retries ->
  open_read filename w = (Raise e, w1) ->
  permanent (exn_class e) = true ->
  attempt_loop filename max_retries retry_delay attempts last_error w
    = (Raise (read_error (permanent_text filename (exn_class e))), w1).
Proof.
  intros Hlt Hopen Hperm. rewrite attempt_loop_eq.
  destruct (Z_lt_dec attempts max_retries); [|lia].
  unfold try_except, bind. rewrite Hopen.
  destruct e as [c text]. destruct c; try discriminate Hperm; reflexivity.
Qed.

Lemma attempt_transient filename max_retries retry_delay attempts last_error w e w1 :
  attempts < max_retries ->
  open_read filename w = (Raise e, w1) ->
  transient e = true ->
  attempt_loop filename max_retries retry_delay attempts last_error w =
    let w2 := emit (attempt_report (attempts + 1) max_retries e) w1 in
    if (attempts + 1 <? max_retries)%Z then
      if (retry_delay <? 0)%Z then
        (Raise (mk_exn ValueError "sleep length must be non-negative"),
         emit (retry_notice retry_delay) w2)
      else
        attempt_loop filename max_retries retry_delay (attempts + 1) (Some (str e))
          (log (EvSleep retry_delay) (emit (retry_notice retry_delay) w2))
    else (Raise (read_error (exhausted_text filename max_retries e)), w2).
Proof.
  intros Hlt Hopen Htr. rewrite attempt_loop_eq.
  destruct (Z_lt_dec attempts max_retries); [|lia].
  unfold try_except, bind at 1. rewrite Hopen.
  assert (Hcls : exn_class e = OSError \/ exn_class e = NotADirectoryError).
  { destruct e as [c text]. destruct c; try discriminate Htr; auto. }
  assert (Hsel :
    isinstance e FileNotFoundError = false /\ isinstance e PermissionError = false
    /\ isinstance e UnicodeDecodeError = false /\ isinstance e IsADirectoryError = false
    /\ (isinstance e IOError || isinstance e OSError) = true).
  { unfold isinstance. destruct Hcls as [-> | ->]; repeat split. }
  destruct Hsel as (-> & -> & -> & -> & ->).
  cbv zeta. unfold bind, print.
  destruct (attempts + 1 <? max_retries)%Z; [|reflexivity].
  unfold time_sleep. destruct (retry_delay <? 0)%Z; reflexivity.
Qed.

Lemma attempt_unexpected filename max_retries retry_delay attempts last_error w e w1 :
  attempts < max_retries ->
  open_read filename w = (Raise e, w1) ->
  isinstance e OSError = false -> exn_class e <> UnicodeDecodeError ->
  attempt_loop filename max_retries retry_delay attempts last_error w
    = (Raise (read_error (unexpected_text filename e)), w1).
Proof.
  intros Hlt Hopen Hos Hde. rewrite attempt_loop_eq.
  destruct (Z_lt_dec attempts max_retries); [|lia].
  unfold try_except, bind. rewrite Hopen.
  destruct e as [c text].
  destruct c; try discriminate Hos; try (contradiction Hde; reflexivity); reflexivity.
Qed.

(** *** Runs of the loop *)

Lemma open_calls_app tr1 tr2 : open_calls (tr1 ++ tr2) = open_calls tr1 + open_calls tr2.
Proof.
  induction tr1 as [|ev tr1 IH]; [reflexivity|].
  destruct ev; cbn [app open_calls]; lia.
Qed.

Lemma sleep_calls_app tr1 tr2 : sleep_calls (tr1 ++ tr2) = sleep_calls tr1 + sleep_calls tr2.
Proof.
  induction tr1 as [|ev tr1 IH]; [reflexivity|].
  destruct ev; cbn [app sleep_calls]; lia.
Qed.

Section ReaderRuns.
Variables (filename : string) (max_retries retry_delay : Z).
Hypothesis delay_ok : 0 <= retry_delay.

Let loop := attempt_loop filename max_retries retry_delay.

(** After the transient failures [es] the next attempt reads the file. *)
Lemma loop_recovers es : forall attempts last_error w content wr rest,
  all_transient es ->
  attempts + Z.of_nat (List.length es) < max_retries ->
  faults w = ((Some <$> es) ++ None :: rest)%list ->
  fs w !! filename = Some (File true wr (Text content)) ->
  exists w',
    loop attempts last_error w = (Return (Some content), w')
    /\ fs w' = fs w /\ faults w' = rest /\ stdin w' = stdin w
    /\ stdout w' = (stdout w ++ retry_lines max_retries retry_delay attempts es)%list
    /\ open_calls (trace w') = open_calls (trace w) + Z.of_nat (List.length es) + 1
    /\ sleep_calls (trace w') = sleep_calls (trace w) + Z.of_nat (List.length es).
Proof.
  subst loop.
  induction es as [|e es IH]; intros attempts last_error w content wr rest Htr Hlt Hq Hfs.
  - cbn [List.length fmap list_fmap app] in *.
    assert (Hnext : next_fault w = None) by (unfold next_fault; rewrite Hq; reflexivity).
    pose proof (open_read_clean filename w Hnext) as Hopen. rewrite Hfs in Hopen.
    exists (after_open filename ModeR w).
    assert (Hin : attempts < max_retries) by lia.
    rewrite (attempt_ok _ _ _ _ _ _ _ _ Hin Hopen).
    destruct (after_open_frame filename ModeR w) as (Ffs & Fin & Fout & Ftr & Fq).
    rewrite Ffs, Fin, Fout, Ftr, Fq, Hq, open_calls_app, sleep_calls_app, app_nil_r.
    cbn [tail open_calls sleep_calls]. repeat split; lia.
  - cbn [List.length fmap list_fmap app] in *. apply Forall_cons in Htr as [He Hes].
    assert (Hnext : next_fault w = Some e) by (unfold next_fault; rewrite Hq; reflexivity).
    pose proof (open_read_fault filename w e Hnext) as Hopen.
    assert (Hin : attempts < max_retries) by lia.
    rewrite (attempt_transient _ _ _ _ _ _ _ _ Hin Hopen He). cbv zeta.
    destruct (Z.ltb_spec (attempts + 1) max_retries) as [_|]; [|lia].
    destruct (Z.ltb_spec retry_delay 0) as [|_]; [lia|].
    destruct (after_open_frame filename ModeR w) as (Ffs & Fin & Fout & Ftr & Fq).
    edestruct (IH (attempts + 1) (Some (str e))) as (w' & Hrun & Gfs & Gq & Gin & Gout & Gop & Gsl);
      [exact Hes | | | | exists w'; rewrite Hrun].
    + lia.
    + cbn [faults log emit]. rewrite Fq, Hq. reflexivity.
    + cbn [fs log emit]. rewrite Ffs. exact Hfs.
    + cbn [fs stdin stdout trace log emit] in *.
      rewrite Gfs, Gin, Gout, Gop, Gsl, Ffs, Fin, Fout, Ftr.
      rewrite !open_calls_app, !sleep_calls_app. cbn [open_calls sleep_calls retry_lines].
      rewrite <- !app_assoc. cbn [app]. repeat split; try lia. exact Gq.
Qed.

(** When the failures [es] and then [e_last] use up every attempt, the
    run ends in the exhaustion error. *)
Lemma loop_exhausts es : forall attempts last_error w e_last rest,
  all_transient es -> transient e_last = true ->
  attempts + Z.of_nat (List.length es) + 1 = max_retries ->
  faults w = ((Some <$> es ++ [e_last]) ++ rest)%list ->
  exists w',
    loop attempts last_error w
      = (Raise (read_error (exhausted_text filename max_retries e_last)), w')
    /\ fs w' = fs w /\ faults w' = rest /\ stdin w' = stdin w
    /\ stdout w' = (stdout w ++ retry_lines max_retries retry_delay attempts es
                    ++ [attempt_report max_retries max_retries e_last])%list
    /\ open_calls (trace w') = open_calls (trace w) + Z.of_nat (List.length es) + 1
    /\ sleep_calls (trace w') = sleep_calls (trace w) + Z.of_nat (List.length es).
Proof.
  subst loop.
  induction es as [|e es IH]; intros attempts last_error w e_last rest Htr Hlast Hm Hq.
  - cbn [List.length fmap list_fmap app] in *.
    assert (Hnext : next_fault w = Some e_last)
      by (unfold next_fault; rewrite Hq; reflexivity).
    pose proof (open_read_fault filename w e_last Hnext) as Hopen.
    assert (Hin : attempts < max_retries) by lia.
    rewrite (attempt_transient _ _ _ _ _ _ _ _ Hin Hopen Hlast). cbv zeta.
    destruct (Z.ltb_spec (attempts + 1) max_retries) as [|_]; [lia|].
    destruct (after_open_frame filename ModeR w) as (Ffs & Fin & Fout & Ftr & Fq).
    eexists; split; [reflexivity|]. cbn [fs faults stdin stdout trace emit].
    rewrite Ffs, Fin, Fout, Ftr, Fq, Hq, open_calls_app, sleep_calls_app.
    cbn [tail open_calls sleep_calls retry_lines app].
    replace (attempts + 1) with max_retries by lia. repeat split; lia.
  - cbn [List.length fmap list_fmap app] in *. apply Forall_cons in Htr as [He Hes].
    assert (Hnext : next_fault w = Some e) by (unfold next_fault; rewrite Hq; reflexivity).
    pose proof (open_read_fault filename w e Hnext) as Hopen.
    assert (Hin : attempts < max_retries) by lia.
    rewrite (attempt_transient _ _ _ _ _ _ _ _ Hin Hopen He). cbv zeta.
    destruct (Z.ltb_spec (attempts + 1) max_retries) as [_|]; [|lia].
    destruct (Z.ltb_spec retry_delay 0) as [|_]; [lia|].
    destruct (after_open_frame filename ModeR w) as (Ffs & Fin & Fout & Ftr & Fq).
    edestruct (IH (attempts + 1) (Some (str e)))
      as (w' & Hrun & Gfs & Gq & Gin & Gout & Gop & Gsl);
      [exact Hes | exact Hlast | | | exists w'; rewrite Hrun].
    + lia.
    + cbn [faults log emit]. rewrite Fq, Hq. reflexivity.
    + cbn [fs stdin stdout trace log emit] in *.
      rewrite Gfs, Gin, Gout, Gop, Gsl, Ffs, Fin, Fout, Ftr.
      rewrite !open_calls_app, !sleep_calls_app. cbn [open_calls sleep_calls retry_lines].
      rewrite <- !app_assoc. cbn [app]. repeat split; try lia. exact Gq.
Qed.

End ReaderRuns.

Lemma open_read_world path w : snd (open_read path w) = after_open path ModeR w.
Proof.
  destruct (next_fault w) as [e|] eqn:Hnext.
  - rewrite (open_read_fault _ _ _ Hnext). reflexivity.
  - rewrite (open_read_clean _ _ Hnext). reflexivity.
Qed.

Lemma append_cancel_l (s x y : string) : s +:+ x = s +:+ y -> x = y.
Proof. induction s as [|a s IH]; simpl; [auto|]. intros [= H]. auto. Qed.

Lemma permanent_text_specific filename c1 c2 :
  permanent c1 = true -> permanent c2 = true ->
  permanent_text filename c1 = permanent_text filename c2 -> c1 = c2.
Proof.
  destruct c1; try discriminate; destruct c2; try discriminate; intros _ _;
    try reflexivity; cbn [permanent_text]; intros Heq; try discriminate Heq;
    apply (append_cancel_l "The file '") in Heq;
    apply append_cancel_l in Heq; discriminate Heq.
Qed.

Lemma loop_classified filename max_retries retry_delay :
  0 <= retry_delay ->
  forall n attempts last_error w,
    Z.to_nat (max_retries - attempts) = S n ->
    classified (fst (attempt_loop filename max_retries retry_delay attempts last_error w)).
Proof.
  intros Hd n. induction n as [|n IH]; intros attempts last_error w Hn;
    (assert (Hin : attempts < max_retries) by lia);
    destruct (open_read filename w) as [[content|e] w1] eqn:Hopen.
  1, 3: rewrite (attempt_ok _ _ _ _ _ _ _ _ Hin Hopen); left; eauto.
  all: destruct (permanent (exn_class e)) eqn:Hperm;
    [rewrite (attempt_permanent _ _ _ _ _ _ _ _ Hin Hopen Hperm); right; eauto|];
    destruct (isinstance e OSError) eqn:Hos;
    [| rewrite (attempt_unexpected _ _ _ _ _ _ _ _ Hin Hopen Hos);
       [right; eauto | intros Hc; rewrite Hc in Hperm; discriminate]];
    (assert (Htr : transient e = true) by (unfold transient; rewrite Hos, Hperm; reflexivity));
    rewrite (attempt_transient _ _ _ _ _ _ _ _ Hin Hopen Htr); cbv zeta;
    destruct (Z.ltb_spec (attempts + 1) max_retries); try lia; try (right; eauto; fail).
  destruct (Z.ltb_spec retry_delay 0); [lia|]. apply IH. lia.
Qed.

(** Within the documented ranges, one attempt at least and a delay that is
    not negative, every call ends in a string or in a [FileReadError]. *)
Lemma read_outcome_classified filename max_retries retry_delay w :
  1 <= max_retries -> 0 <= retry_delay ->
  classified (fst (read_file_with_retries filename max_retries retry_delay w)).
Proof.
  intros Hm Hd. unfold read_file_with_retries.
  apply (loop_classified _ _ _ Hd (Z.to_nat (max_retries - 0) - 1)). lia.
Qed.

(** A negative delay makes the first retry raise [ValueError] out of the
    reader. *)
Lemma read_negative_delay filename max_retries retry_delay w e :
  2 <= max_retries -> retry_delay < 0 -> next_fault w = Some e -> transient e = true ->
  fst (read_file_with_retries filename max_retries retry_delay w)
    = Raise (mk_exn ValueError "sleep length must be non-negative").
Proof.
  intros Hm Hd Hnext Htr. unfold read_file_with_retries.
  assert (Hin : 0 < max_retries) by lia.
  rewrite (attempt_transient _ _ _ _ _ _ _ _ Hin (open_read_fault filename w e Hnext) Htr).
  cbv zeta. destruct (Z.ltb_spec (0 + 1) max_retries); [|lia].
  destruct (Z.ltb_spec retry_delay 0); [reflexivity | lia].
Qed.

(** With no attempt allowed the loop body never runs. *)
Lemma read_no_attempt_allowed filename max_retries retry_delay w :
  max_retries <= 0 ->
  read_file_with_retries filename max_retries retry_delay w = (Return None, w).
Proof. intros Hm. unfold read_file_with_retries. apply attempt_exit. lia. Qed.

(** [C1] Let the delay be non-negative and let the failures [es] be
    transient.  If they are followed by a clean read of a readable text
    file and [length es + 1] does not exceed [max_retries], the reader
    returns the whole content after exactly [length es + 1] calls of
    [open], having reported the attempts [1 .. length es].  If [es] and one
    more transient failure [e_last] fill all [max_retries] attempts, the
    reader raises the exhaustion [FileReadError] naming [max_retries] and
    the text of [e_last], after exactly [max_retries] calls of [open]. *)
Theorem C1_transient_failures (filename : string) (max_retries retry_delay : Z)
    (w : World) (es : list exn) :
  0 <= retry_delay ->
  all_transient es ->
  (forall content wr rest,
     Z.of_nat (List.length es) + 1 <= max_retries ->
     faults w = ((Some <$> es) ++ None :: rest)%list ->
     fs w !! filename = Some (File true wr (Text content)) ->
     exists w',
       read_file_with_retries filename max_retries retry_delay w
         = (Return (Some content), w')
       /\ open_calls (trace w') = open_calls (trace w) + (Z.of_nat (List.length es) + 1)
       /\ sleep_calls (trace w') = sleep_calls (trace w) + Z.of_nat (List.length es)
       /\ stdout w' = (stdout w ++ retry_lines max_retries retry_delay 0 es)%list)
  /\ (forall e_last rest,
     transient e_last = true ->
     Z.of_nat (List.length es) + 1 = max_retries ->
     faults w = ((Some <$> es ++ [e_last]) ++ rest)%list ->
     exists w',
       read_file_with_retries filename max_retries retry_delay w
         = (Raise (read_error (exhausted_text filename max_retries e_last)), w')
       /\ open_calls (trace w') = open_calls (trace w) + max_retries
       /\ stdout w' = (stdout w ++ retry_lines max_retries retry_delay 0 es
                       ++ [attempt_report max_retries max_retries e_last])%list).
Proof.
  intros Hd Htr. split.
  - intros content wr rest HN Hq Hfs.
    destruct (loop_recovers filename max_retries retry_delay Hd es 0 None w content wr rest)
      as (w' & Hrun & _ & _ & _ & Hout & Hop & Hsl); try assumption; try lia.
    exists w'. unfold read_file_with_retries. rewrite Hrun.
    repeat split; try assumption; lia.
  - intros e_last rest Hlast HN Hq.
    destruct (loop_exhausts filename max_retries retry_delay Hd es 0 None w e_last rest)
      as (w' & Hrun & _ & _ & _ & Hout & Hop & _); try assumption; try lia.
    exists w'. unfold read_file_with_retries. rewrite Hrun.
    repeat split; try assumption; lia.
Qed.

Lemma C1_witness :
  fst (read_file_with_retries "notes.txt" 3 1 (set_faults [Some eio; None] world0))
    = Return (Some "hello")
  /\ fst (read_file_with_retries "notes.txt" 2 1 (set_faults [Some eio; Some eio] world0))
    = Raise (read_error
        "Failed to read 'notes.txt' after 2 attempts. Last error: [Errno 5] Input/output error").
Proof.
  assert (Hd : 0 <= 1) by lia.
  assert (Htr : all_transient [eio]) by (repeat constructor).
  split.
  - destruct (proj1 (C1_transient_failures "notes.txt" 3 1
                       (set_faults [Some eio; None] world0) [eio] Hd Htr)
                "hello" true [])
      as (w' & Hrun & _); [cbn; lia | reflexivity | reflexivity |].
    rewrite Hrun. reflexivity.
  - destruct (proj2 (C1_transient_failures "notes.txt" 2 1
                       (set_faults [Some eio; Some eio] world0) [eio] Hd Htr)
                eio [])
      as (w' & Hrun & _); [reflexivity | reflexivity | reflexivity |].
    rewrite Hrun. reflexivity.
Defined.

(** A failure that comes from the file table comes back at every
    attempt: when it is a transient one, the attempts run out. *)
Lemma loop_table_exhausts filename max_retries retry_delay e :
  0 <= retry_delay -> transient e = true ->
  forall n attempts last_error w,
    Z.to_nat (max_retries - attempts) = S n ->
    faults w = [] -> fs w !! filename = None -> lookup_error (fs w) filename = e ->
    exists w',
      attempt_loop filename max_retries retry_delay attempts last_error w
        = (Raise (read_error (exhausted_text filename max_retries e)), w')
      /\ open_calls (trace w') = open_calls (trace w) + Z.of_nat (S n)
      /\ sleep_calls (trace w') = sleep_calls (trace w) + Z.of_nat n
      /\ stdout w'
         = (stdout w ++ retry_lines max_retries retry_delay attempts (replicate n e)
            ++ [attempt_report max_retries max_retries e])%list.
Proof.
  intros Hd Htr n.
  induction n as [|n IH]; intros attempts last_error w Hn Hq Hfs He;
    (assert (Hin : attempts < max_retries) by lia);
    (assert (Hnext : next_fault w = None) by (unfold next_fault; rewrite Hq; reflexivity));
    pose proof (open_read_clean filename w Hnext) as Hopen; rewrite Hfs, He in Hopen;
    rewrite (attempt_transient _ _ _ _ _ _ _ _ Hin Hopen Htr); cbv zeta;
    destruct (after_open_frame filename ModeR w) as (Ffs & Fin & Fout & Ftr & Fq).
  - destruct (Z.ltb_spec (attempts + 1) max_retries) as [|_]; [lia|].
    eexists; split; [reflexivity|]. cbn [stdout trace emit].
    rewrite Fout, Ftr, open_calls_app, sleep_calls_app.
    cbn [open_calls sleep_calls retry_lines replicate app].
    replace (attempts + 1) with max_retries by lia. repeat split; lia.
  - destruct (Z.ltb_spec (attempts + 1) max_retries) as [_|]; [|lia].
    destruct (Z.ltb_spec retry_delay 0) as [|_]; [lia|].
    edestruct (IH (attempts + 1) (Some (str e))) as (w' & Hrun & Gop & Gsl & Gout);
      [ | | | | exists w'; rewrite Hrun].
    + lia.
    + cbn [faults log emit]. rewrite Fq, Hq. reflexivity.
    + cbn [fs log emit]. rewrite Ffs. exact Hfs.
    + cbn [fs log emit]. rewrite Ffs. exact He.
    + cbn [stdout trace log emit] in *.
      rewrite Gop, Gsl, Gout, Fout, Ftr.
      rewrite !open_calls_app, !sleep_calls_app.
      cbn [open_calls sleep_calls retry_lines replicate].
      rewrite <- !app_assoc. cbn [app]. repeat split; lia.
Qed.

(** [C2] When at least one attempt is allowed and the first [open] fails
    with a permanent cause (file not found, permission denied, undecodable
    content, a directory), the reader raises at once the [FileReadError]
    whose text belongs to that cause alone: the world is the one left by
    that single [open], with no sleep and nothing printed.  In particular a
    path absent from the file table, read without an injected fault, gives
    the not-found error, provided [open] answers "no such file": the name
    holds no NUL character, no leading part of the path is a regular file,
    and the name is not too long for a directory entry. *)
Theorem C2_permanent_failure (filename : string) (max_retries retry_delay : Z) (w : World) :
  1 <= max_retries ->
  (forall e w1,
     open_read filename w = (Raise e, w1) -> permanent (exn_class e) = true ->
     read_file_with_retries filename max_retries retry_delay w
       = (Raise (read_error (permanent_text filename (exn_class e))), w1)
     /\ open_calls (trace w1) = open_calls (trace w) + 1
     /\ sleep_calls (trace w1) = sleep_calls (trace w)
     /\ stdout w1 = stdout w)
  /\ (forall c1 c2, permanent c1 = true -> permanent c2 = true ->
        permanent_text filename c1 = permanent_text filename c2 -> c1 = c2)
  /\ (next_fault w = None -> fs w !! filename = None ->
      contains NUL filename = false -> below_file (fs w) filename = false ->
      name_fits filename = true ->
      read_file_with_retries filename max_retries retry_delay w
        = (Raise (read_error ("The file '" +:+ filename +:+ "' was not found.")),
           after_open filename ModeR w)).
Proof.
  intros Hm. assert (Hin : 0 < max_retries) by lia.
  split; [|split; [apply permanent_text_specific|]].
  - intros e w1 Hopen Hperm. unfold read_file_with_retries.
    rewrite (attempt_permanent _ _ _ _ _ _ _ _ Hin Hopen Hperm).
    split; [reflexivity|].
    pose proof (open_read_world filename w) as Hw. rewrite Hopen in Hw. cbn [snd] in Hw.
    destruct (after_open_frame filename ModeR w) as (_ & _ & Fout & Ftr & _).
    subst w1. rewrite Ftr, Fout, open_calls_app, sleep_calls_app.
    cbn [open_calls sleep_calls]. repeat split; lia.
  - intros Hnext Hfs Hnul Hbelow _. unfold read_file_with_retries.
    pose proof (open_read_clean filename w Hnext) as Hopen. rewrite Hfs in Hopen.
    unfold lookup_error in Hopen. rewrite Hnul, Hbelow in Hopen.
    rewrite (attempt_permanent _ _ _ _ _ _ _ _ Hin Hopen); reflexivity.
Qed.

Lemma C2_witness :
  read_file_with_retries "absent.txt" 3 1 world0
    = (Raise (read_error "The file 'absent.txt' was not found."),
       after_open "absent.txt" ModeR world0)
  /\ fst (read_file_with_retries "." 3 1 world0)
     = Raise (read_error "'.' is a directory, not a file.").
Proof.
  assert (Hm : 1 <= 3) by lia.
  split.
  - apply (proj2 (proj2 (C2_permanent_failure "absent.txt" 3 1 world0 Hm))); reflexivity.
  - destruct (proj1 (C2_permanent_failure "." 3 1 world0 Hm)
                (mk_exn IsADirectoryError (errno_text "[Errno 21] Is a directory" "."))
                (after_open "." ModeR world0)) as (Hrun & _);
      [reflexivity | reflexivity |].
    rewrite Hrun. reflexivity.
Defined.

(** [C2] as first stated fails: nothing exists at "notes.txt/x", a path
    below the regular file "notes.txt".  There [open] raises
    [NotADirectoryError], an [OSError] outside the four permanent
    classes, and the reader treats it as every other [OSError]: it
    reports the attempt, sleeps and tries again, three calls of [open] and
    two sleeps in all, and ends in the exhaustion error. *)
Lemma C2_counterexample :
  fst (os_path_exists "notes.txt/x" world0) = Return false
  /\ fst (open_read "notes.txt/x" world0)
     = Raise (mk_exn NotADirectoryError "[Errno 20] Not a directory: 'notes.txt/x'")
  /\ exists w',
       read_file_with_retries "notes.txt/x" 3 1 world0
         = (Raise (read_error ("Failed to read 'notes.txt/x' after 3 attempts. "
                               +:+ "Last error: [Errno 20] Not a directory: 'notes.txt/x'")),
            w')
       /\ open_calls (trace w') = 3
       /\ sleep_calls (trace w') = 2
       /\ stdout w'
          = ["Error reading file (attempt 1/3): [Errno 20] Not a directory: 'notes.txt/x'";
             "Retrying in 1 second(s)...";
             "Error reading file (attempt 2/3): [Errno 20] Not a directory: 'notes.txt/x'";
             "Retrying in 1 second(s)...";
             "Error reading file (attempt 3/3): [Errno 20] Not a directory: 'notes.txt/x'"].
Proof.
  split; [reflexivity|]. split; [reflexivity|].
  assert (Hd : 0 <= 1) by lia.
  destruct (loop_table_exhausts "notes.txt/x" 3 1
              (mk_exn NotADirectoryError "[Errno 20] Not a directory: 'notes.txt/x'")
              Hd eq_refl 2 0 None world0 eq_refl eq_refl eq_refl eq_refl)
    as (w' & Hrun & Hop & Hsl & Hout).
  exists w'. unfold read_file_with_retries. rewrite Hrun, Hop, Hsl, Hout.
  repeat split; vm_compute; reflexivity.
Qed.

(** [C3] fails on the code: with [max_retries = 0] the loop body never
    runs, and the call ends without a string and without an error, leaving
    the world untouched. *)
Theorem C3_no_attempt_no_result (filename : string) (retry_delay : Z) (w : World) :
  read_file_with_retries filename 0 retry_delay w = (Return None, w)
  /\ ~ classified (fst (read_file_with_retries filename 0 retry_delay w)).
Proof.
  assert (Hrun : read_file_with_retries filename 0 retry_delay w = (Return None, w)).
  { unfold read_file_with_retries. apply attempt_exit. lia. }
  split; [exact Hrun|]. rewrite Hrun.
  intros [[content Hc] | [text Ht]]; discriminate.
Qed.

(** ** The writer *)

Lemma isinstance_Exception e : isinstance e Exception = true.
Proof. destruct e as [c text]. destruct c; reflexivity. Qed.

Lemma open_write_stores path content w w1 :
  open_write path content w = (Return tt, w1) ->
  exists r, fs w1 !! path = Some (File r true (Text content)).
Proof.
  unfold open_write. destruct (take_fault _) as [[e|] w0]; [discriminate|].
  destruct (fs w0 !! path) as [[r [] d|r wr]|]; try discriminate.
  - intros [= <-]. exists r. cbn [fs set_fs]. apply lookup_insert_eq.
  - destruct (create_error _ _); try discriminate.
    intros [= <-]. exists true. cbn [fs set_fs]. apply lookup_insert_eq.
Qed.

Lemma write_file_ok filename content w w1 :
  open_write filename content w = (Return tt, w1) ->
  write_file filename content w = (Return true, w1).
Proof. intros Hopen. unfold write_file, try_except, bind. rewrite Hopen. reflexivity. Qed.

Lemma write_file_failed filename content w e w1 :
  open_write filename content w = (Raise e, w1) ->
  write_file filename content w = (Return false, emit (write_diagnostic filename e) w1).
Proof.
  intros Hopen. unfold write_file, try_except, bind at 1. rewrite Hopen.
  unfold write_diagnostic. destruct (isinstance e PermissionError); [reflexivity|].
  rewrite isinstance_Exception. reflexivity.
Qed.

(** [C9] [write_file] answers [True] exactly when the write goes through,
    and then the named file holds the content.  When the write raises,
    for lack of permission or for any other reason, one diagnostic is
    printed and the answer is [False]; no exception leaves [write_file]. *)
Theorem C9_write_file (filename content : string) (w : World) :
  (forall w1, open_write filename content w = (Return tt, w1) ->
     write_file filename content w = (Return true, w1)
     /\ exists r, fs w1 !! filename = Some (File r true (Text content)))
  /\ (forall e w1, open_write filename content w = (Raise e, w1) ->
     write_file filename content w
       = (Return false, emit (write_diagnostic filename e) w1))
  /\ (exists ok w1, write_file filename content w = (Return ok, w1))
  /\ (fst (write_file filename content w) = Return true
      <-> fst (open_write filename content w) = Return tt).
Proof.
  split; [|split; [|split]].
  - intros w1 Hopen. split; [apply write_file_ok, Hopen|].
    eapply open_write_stores, Hopen.
  - apply write_file_failed.
  - destruct (open_write filename content w) as [[[]|e] w1] eqn:Hopen.
    + rewrite (write_file_ok _ _ _ _ Hopen). eauto.
    + rewrite (write_file_failed _ _ _ _ _ Hopen). eauto.
  - destruct (open_write filename content w) as [[[]|e] w1] eqn:Hopen.
    + rewrite (write_file_ok _ _ _ _ Hopen). split; reflexivity.
    + rewrite (write_file_failed _ _ _ _ _ Hopen). split; discriminate.
Qed.

Lemma C9_witness :
  fst (write_file "out.txt" "HELLO" world0) = Return true
  /\ write_file "secret.txt" "x" world_locked
     = (Return false,
        emit "Error: You don't have permission to write to 'secret.txt'."
          (after_open "secret.txt" ModeW world_locked)).
Proof.
  split.
  - destruct (C9_write_file "out.txt" "HELLO" world0) as (Hok & _).
    destruct (Hok (snd (open_write "out.txt" "HELLO" world0))) as [Hrun _];
      [reflexivity|]. rewrite Hrun. reflexivity.
  - destruct (C9_write_file "secret.txt" "x" world_locked) as (_ & Hfail & _).
    apply (Hfail (mk_exn PermissionError
                    (errno_text "[Errno 13] Permission denied" "secret.txt"))).
    reflexivity.
Defined.

(** ** The Read & Write Challenge *)

Lemma get_modification_choice_run choice rest w :
  stdin w = choice :: rest ->
  exists w',
    get_modification_choice w = (Return (default "uppercase" (options !! choice)), w')
    /\ fs w' = fs w /\ faults w' = faults w /\ stdin w' = rest /\ trace w' = trace w
    /\ exists lines, stdout w' = (stdout w ++ lines)%list.
Proof.
  intros Hin. destruct w as [f q i o tr]. cbn [stdin] in Hin. subst i.
  eexists. split; [reflexivity|]. cbn [fs faults stdin stdout trace emit set_stdin].
  repeat split. rewrite <- !app_assoc. eauto.
Qed.

Lemma read_file_ok filename w content wr :
  next_fault w = None ->
  fs w !! filename = Some (File true wr (Text content)) ->
  read_file filename w = (Return (Some content), after_open filename ModeR w).
Proof.
  intros Hnext Hfs. unfold read_file, try_except, bind.
  rewrite (open_read_clean _ _ Hnext), Hfs. reflexivity.
Qed.

(** [C8] Take a run of [main] whose input file is read, whose output path
    is already in the file table, and whose answer to the overwrite
    question does not lower-case to ["y"].  The run ends normally after
    printing "Operation cancelled."; no file is opened for writing and the
    file table, the output file in it, is what it was. *)
Theorem C8_declined_overwrite `{CaseMethods} (w : World)
    (input_filename choice output_filename answer content : string)
    (rest : list string) (wr : bool) :
  stdin w = input_filename :: choice :: output_filename :: answer :: rest ->
  next_fault w = None ->
  fs w !! input_filename = Some (File true wr (Text content)) ->
  is_Some (fs w !! output_filename) ->
  lower answer <> "y" ->
  exists w',
    main w = (Return tt, w')
    /\ fs w' = fs w
    /\ fs w' !! output_filename = fs w !! output_filename
    /\ trace w' = (trace w ++ [EvOpen input_filename ModeR; EvStat output_filename])%list
    /\ existsb is_write_open (trace w') = existsb is_write_open (trace w)
    /\ last (stdout w') = Some "Operation cancelled."
    /\ stdin w' = rest.
Proof.
  intros Hin Hnext Hfs Hout Hans.
  destruct w as [f q i o tr]. cbn [stdin fs trace] in *. subst i.
  apply String.eqb_neq in Hans.
  unfold main, bind at 1 2 3 4. unfold print at 1. unfold input at 1.
  cbn [stdin emit set_stdin fs faults stdout trace].
  erewrite read_file_ok; [|exact Hnext|exact Hfs].
  unfold emit at 1 2, set_stdin at 1. cbn [stdin fs faults stdout trace].
  assert (Hopen : exists q', after_open input_filename ModeR
            (mk_world f q (choice :: output_filename :: answer :: rest)
               ((o ++ ["=== File Read & Write Challenge ==="])
                  ++ ["Enter the name of the file to read: "]) tr)
          = mk_world f q' (choice :: output_filename :: answer :: rest)
               ((o ++ ["=== File Read & Write Challenge ==="])
                  ++ ["Enter the name of the file to read: "])
               (tr ++ [EvOpen input_filename ModeR])).
  { unfold after_open, take_fault. cbn [faults log fs stdin stdout trace].
    destruct q; cbn; eauto. }
  destruct Hopen as [q' ->].
  cbv [get_modification_choice bind print input os_path_exists ret
       emit set_stdin log stdin fs faults stdout trace].
  rewrite (bool_decide_eq_true_2 _ Hout).
  cbv [emit set_stdin log stdin fs faults stdout trace]. rewrite Hans.
  cbv [negb emit set_stdin log stdin fs faults stdout trace].
  eexists. split; [reflexivity|].
  cbn [stdin fs faults stdout trace].
  rewrite last_snoc, <- app_assoc, existsb_app. cbn [app existsb is_write_open].
  rewrite orb_false_r. repeat split.
Qed.

Lemma C8_witness :
  exists w',
    @main ascii_case (set_stdin ["notes.txt"; "1"; "notes.txt"; "N"] world0) = (Return tt, w')
    /\ fs w' !! "notes.txt" = Some (File true true (Text "hello")).
Proof.
  destruct (@C8_declined_overwrite ascii_case
              (set_stdin ["notes.txt"; "1"; "notes.txt"; "N"] world0)
              "notes.txt" "1" "notes.txt" "N" "hello" [] true)
    as (w' & Hrun & _ & Hkeep & _).
  - reflexivity.
  - reflexivity.
  - reflexivity.
  - exists (File true true (Text "hello")). reflexivity.
  - vm_compute. discriminate.
  - exists w'. split; [exact Hrun|]. rewrite Hkeep. reflexivity.
Defined.

(** ** Reads that do not raise *)

(** [Read_write.read_file] hands back the content when the read goes
    through; when it raises, one diagnostic chosen by the class of the
    exception is printed and the answer is [None].  No exception leaves
    the function and the file table is not changed. *)
Theorem read_file_never_raises (filename : string) (w : World) :
  (forall content w1, open_read filename w = (Return content, w1) ->
     read_file filename w = (Return (Some content), w1))
  /\ (forall e w1, open_read filename w = (Raise e, w1) ->
     read_file filename w = (Return None, emit (read_diagnostic filename e) w1))
  /\ (exists r w1, read_file filename w = (Return r, w1))
  /\ fs (snd (read_file filename w)) = fs w.
Proof.
  assert (Hok : forall content w1, open_read filename w = (Return content, w1) ->
            read_file filename w = (Return (Some content), w1)).
  { intros content w1 Hopen. unfold read_file, try_except, bind. rewrite Hopen. reflexivity. }
  assert (Hfail : forall e w1, open_read filename w = (Raise e, w1) ->
            read_file filename w = (Return None, emit (read_diagnostic filename e) w1)).
  { intros e w1 Hopen. unfold read_file, try_except, bind at 1. rewrite Hopen.
    unfold read_diagnostic.
    destruct (isinstance e FileNotFoundError); [reflexivity|].
    destruct (isinstance e PermissionError); [reflexivity|].
    rewrite isinstance_Exception. reflexivity. }
  split; [exact Hok|]. split; [exact Hfail|].
  pose proof (open_read_world filename w) as Hw.
  destruct (after_open_frame filename ModeR w) as (Ffs & _).
  destruct (open_read filename w) as [[content|e] w1] eqn:Hopen; cbn [snd] in Hw; subst w1.
  - rewrite (Hok _ _ eq_refl). split; [eauto | exact Ffs].
  - rewrite (Hfail _ _ eq_refl). split; [eauto | exact Ffs].
Qed.

Lemma read_file_never_raises_witness :
  read_file "absent.txt" world0
    = (Return None,
       emit "Error: The file 'absent.txt' was not found."
         (after_open "absent.txt" ModeR world0)).
Proof.
  apply (proj1 (proj2 (read_file_never_raises "absent.txt" world0))
           (mk_exn FileNotFoundError
              (errno_text "[Errno 2] No such file or directory" "absent.txt"))).
  reflexivity.
Defined.

(** ** What a write changes *)

Lemma open_write_world path content w :
  (exists e, open_write path content w = (Raise e, after_open path ModeW w))
  \/ exists r, open_write path content w
       = (Return tt,
          set_fs (<[path := File r true (Text content)]> (fs w)) (after_open path ModeW w))
         /\ r = match fs w !! path with Some n => permits n R_OK | None => true end.
Proof.
  unfold open_write, after_open.
  destruct (take_fault (log (EvOpen path ModeW) w)) as [fault w0] eqn:Htake.
  assert (Hfs : fs w0 = fs w).
  { unfold take_fault in Htake. cbn [faults log] in Htake.
    destruct (faults w); injection Htake as _ <-; reflexivity. }
  cbn [snd]. rewrite Hfs.
  destruct fault as [e|]; [left; eauto|].
  destruct (fs w !! path) as [[r [] d|r wr]|]; try (left; eauto; fail).
  - right. exists r. split; reflexivity.
  - destruct (create_error (fs w) path); [left; eauto|].
    right. exists true. split; reflexivity.
Qed.

Lemma open_write_clean path content w :
  next_fault w = None ->
  open_write path content w =
    match fs w !! path with
    | Some (Dir _ _) =>
        (Raise (mk_exn IsADirectoryError (errno_text "[Errno 21] Is a directory" path)),
         after_open path ModeW w)
    | Some (File _ false _) =>
        (Raise (mk_exn PermissionError (errno_text "[Errno 13] Permission denied" path)),
         after_open path ModeW w)
    | Some (File r true _) =>
        (Return tt,
         set_fs (<[path := File r true (Text content)]> (fs w)) (after_open path ModeW w))
    | None =>
        match create_error (fs w) path with
        | Some e => (Raise e, after_open path ModeW w)
        | None =>
            (Return tt,
             set_fs (<[path := File true true (Text content)]> (fs w))
               (after_open path ModeW w))
        end
    end.
Proof.
  unfold next_fault, open_write, after_open, take_fault.
  cbn [faults log].
  destruct (faults w) as [|[e'|] q]; try discriminate; intros _; cbn [fs log set_faults snd];
    destruct (fs w !! path) as [[? [] ?|]|]; try reflexivity;
    destruct (create_error (fs w) path); reflexivity.
Qed.

Lemma open_write_fault path content w e :
  next_fault w = Some e ->
  open_write path content w = (Raise e, after_open path ModeW w).
Proof.
  unfold next_fault, open_write, after_open, take_fault. cbn [faults log].
  destruct (faults w) as [|[e'|] q]; try discriminate.
  intros [= ->]. reflexivity.
Qed.

Lemma write_file_world filename content w :
  (exists diag, write_file filename content w
     = (Return false, emit diag (after_open filename ModeW w)))
  \/ exists r, write_file filename content w
       = (Return true,
          set_fs (<[filename := File r true (Text content)]> (fs w))
            (after_open filename ModeW w))
         /\ r = match fs w !! filename with Some n => permits n R_OK | None => true end.
Proof.
  destruct (open_write_world filename content w) as [[e Hrun] | (r & Hrun & Hr)].
  - left. eexists. apply write_file_failed, Hrun.
  - right. exists r. split; [apply write_file_ok, Hrun | exact Hr].
Qed.

(** [write_file] touches no path but the one it is given and leaves the
    keyboard input alone, whether it answers [True] or [False]. *)
Theorem write_file_frame (filename content : string) (w : World) :
  same_except filename w (snd (write_file filename content w))
  /\ stdin (snd (write_file filename content w)) = stdin w.
Proof.
  destruct (after_open_frame filename ModeW w) as (Ffs & Fin & _).
  destruct (write_file_world filename content w) as [[diag Hrun] | (r & Hrun & _)];
    rewrite Hrun; unfold same_except; cbn [fst snd fs stdin emit set_fs].
  - split; [|assumption]. intros p _. rewrite Ffs. reflexivity.
  - split; [|assumption].
    intros p Hp. rewrite lookup_insert_ne by congruence. reflexivity.
Qed.

(** What [write_file] has written is what the next read gives back, from
    either reader, provided the file is readable and no fault is injected:
    a file created by the write is readable, an overwritten one keeps its
    permission.  The content holds no carriage return: text mode hands
    those back as line feeds, which the file table does not represent. *)
Theorem write_then_read (filename content : string) (w w1 : World) :
  contains CR content = false ->
  write_file filename content w = (Return true, w1) ->
  next_fault w1 = None ->
  (forall n, fs w !! filename = Some n -> permits n R_OK = true) ->
  read_file filename w1 = (Return (Some content), after_open filename ModeR w1)
  /\ forall max_retries retry_delay, 1 <= max_retries ->
       read_file_with_retries filename max_retries retry_delay w1
         = (Return (Some content), after_open filename ModeR w1).
Proof.
  intros _ Hwrite Hnext Hperm.
  assert (Hfs : fs w1 !! filename = Some (File true true (Text content))).
  { destruct (write_file_world filename content w) as [[diag Hrun] | (r & Hrun & Hr)];
      rewrite Hrun in Hwrite; [discriminate|].
    injection Hwrite as <-. cbn [fs set_fs]. rewrite lookup_insert_eq.
    destruct (fs w !! filename) as [n|]; [rewrite (Hperm n eq_refl) in Hr|]; subst r;
      reflexivity. }
  split.
  - eapply read_file_ok; eassumption.
  - intros max_retries retry_delay Hm. unfold read_file_with_retries.
    apply attempt_ok; [lia|]. rewrite (open_read_clean _ _ Hnext), Hfs. reflexivity.
Qed.

Lemma write_then_read_witness :
  fst (read_file "out.txt" (snd (write_file "out.txt" "HELLO" world0)))
    = Return (Some "HELLO").
Proof.
  destruct (write_then_read "out.txt" "HELLO" world0
              (snd (write_file "out.txt" "HELLO" world0))) as [Hread _].
  - reflexivity.
  - reflexivity.
  - reflexivity.
  - intros n Hn. vm_compute in Hn. discriminate Hn.
  - rewrite Hread. reflexivity.
Defined.

(** ** The access check before the operation *)

Lemma write_file_clean filename content w :
  next_fault w = None ->
  fst (write_file filename content w) = Return (write_goes_through w filename).
Proof.
  intros Hnext. pose proof (open_write_clean filename content w Hnext) as Hopen.
  unfold write_goes_through.
  destruct (fs w !! filename) as [[r [] d|r wr]|];
    [| | |destruct (create_error (fs w) filename)];
    first [ rewrite (write_file_ok _ _ _ _ Hopen) | rewrite (write_file_failed _ _ _ _ _ Hopen) ];
    reflexivity.
Qed.

Lemma write_file_faulty filename content w e :
  next_fault w = Some e -> fst (write_file filename content w) = Return false.
Proof.
  intros Hnext.
  rewrite (write_file_failed _ _ _ _ _ (open_write_fault filename content w e Hnext)).
  reflexivity.
Qed.

Lemma check_keeps_next_fault filename mode w :
  next_fault (snd (check_file_access filename mode w)) = next_fault w
  /\ fs (snd (check_file_access filename mode w)) = fs w.
Proof.
  destruct (check_keeps_world filename mode w) as (Hfs & Hq & _).
  split; [|exact Hfs]. unfold next_fault. rewrite Hq. reflexivity.
Qed.

(** A missing file is not created in a directory the check refuses. *)
Lemma create_error_unwritable w filename :
  may_write w (containing_directory filename) = false ->
  create_error (fs w) filename <> None.
Proof.
  unfold may_write, containing_directory, create_error. intros Hw.
  destruct (_ || _ || _); [discriminate|].
  destruct (ends_with_slash filename) eqn:Hslash.
  - destruct (fs w !! str_or (os_path_dirname (rstrip_slash filename)) ".") as [[|]|];
      discriminate.
  - unfold ends_with_slash in Hslash. apply negb_false_iff, String.eqb_eq in Hslash.
    rewrite Hslash.
    destruct (fs w !! str_or (os_path_dirname filename) ".") as [[? wr ?|? wr]|];
      cbn [permits] in Hw; try discriminate. subst wr. discriminate.
Qed.

(** A write refused by the write-mode check would have failed: after a
    failed check [write_file] answers [False], fault or no fault.  A passed
    check is followed by a successful write when no fault is injected, the
    name is a plain file name, the target is not a directory and, for a
    missing target, the directory asked about is one.  The check does pass
    for a writable directory, and the write then fails. *)
Theorem check_then_write (filename content : string) (w : World) :
  let r := fst (check_file_access filename "w" w) in
  let w1 := snd (check_file_access filename "w" w) in
  (forall msg, r = Return (false, msg) -> fst (write_file filename content w1) = Return false)
  /\ (forall msg, r = Return (true, msg) ->
      next_fault w = None ->
      plain_name filename = true ->
      is_dir (fs w !! filename) = false ->
      (fs w !! filename = None -> is_dir (fs w !! containing_directory filename) = true) ->
      fst (write_file filename content w1) = Return true)
  /\ (forall rd, fs w !! filename = Some (Dir rd true) ->
      r = Return (true, passed) /\ fst (write_file filename content w1) = Return false).
Proof.
  cbv zeta.
  destruct (check_keeps_next_fault filename "w" w) as [Hnf Hfs1].
  assert (Hgo : forall b, next_fault w = None ->
            write_goes_through w filename = b ->
            fst (write_file filename content (snd (check_file_access filename "w" w)))
              = Return b).
  { intros b Hnext <-. rewrite write_file_clean by congruence.
    unfold write_goes_through. rewrite Hfs1. reflexivity. }
  assert (Hbad : forall e, next_fault w = Some e ->
            fst (write_file filename content (snd (check_file_access filename "w" w)))
              = Return false).
  { intros e Hnext. apply (write_file_faulty _ _ _ e). congruence. }
  destruct (fs w !! filename) as [n|] eqn:Hfs.
  - rewrite (check_write_existing _ _ _ Hfs) in *. cbn [fst snd] in *.
    split; [|split].
    + intros msg [= Hw _]. destruct (next_fault w) as [e|] eqn:Hnext; [eauto|].
      apply Hgo; [reflexivity|]. unfold write_goes_through. rewrite Hfs.
      destruct n as [? wr ?|? wr]; cbn [permits] in Hw; congruence.
    + intros msg [= Hw _] Hnext _ Hdir _. apply Hgo; [assumption|].
      unfold write_goes_through. rewrite Hfs.
      destruct n as [? wr ?|? wr]; cbn [permits is_dir] in *; congruence.
    + intros rd [= ->]. split; [reflexivity|].
      destruct (next_fault w) as [e|] eqn:Hnext; [eauto|].
      apply Hgo; [reflexivity|]. unfold write_goes_through. rewrite Hfs. reflexivity.
  - rewrite (check_write_missing _ _ Hfs) in *. cbn [fst snd] in *.
    split; [|split].
    + intros msg [= Hw _]. destruct (next_fault w) as [e|] eqn:Hnext; [eauto|].
      apply Hgo; [reflexivity|]. unfold write_goes_through. rewrite Hfs.
      pose proof (create_error_unwritable w filename Hw) as Hce.
      destruct (create_error (fs w) filename); congruence.
    + intros msg [= Hw _] Hnext Hplain _ Hdir. specialize (Hdir eq_refl).
      apply Hgo; [assumption|].
      destruct (plain_name_parts _ Hplain) as (_ & _ & Hbare).
      rewrite (dirname_bare _ Hbare) in *.
      unfold write_goes_through, may_write in *.
      rewrite Hfs, (create_error_plain _ _ Hplain).
      destruct (fs w !! ".") as [[? wr ?|? []]|];
        cbn [permits is_dir] in *; congruence.
    + intros rd Hf. discriminate Hf.
Qed.

Lemma check_then_write_witness :
  fst (write_file "secret.txt" "x"
         (snd (check_file_access "secret.txt" "w" world_locked))) = Return false
  /\ fst (write_file "out.txt" "x" (snd (check_file_access "out.txt" "w" world0)))
     = Return true
  /\ (fst (check_file_access "docs" "w" world_dir) = Return (true, passed)
      /\ fst (write_file "docs" "x" (snd (check_file_access "docs" "w" world_dir)))
         = Return false).
Proof.
  split; [|split].
  - apply (proj1 (check_then_write "secret.txt" "x" world_locked)
             "You don't have permission to write to 'secret.txt'.").
    reflexivity.
  - apply (proj1 (proj2 (check_then_write "out.txt" "x" world0)) passed);
      reflexivity.
  - apply (proj2 (proj2 (check_then_write "docs" "x" world_dir)) true). reflexivity.
Defined.





(** ** More on the filename validator *)

Lemma validate_filename_cases filename w :
  validate_filename filename w =
    if negb (truthy (strip filename)) then
      (Return false, emit "Error: Filename cannot be empty." w)
    else match first_invalid invalid_chars filename with
         | Some c => (Return false, emit (invalid_char_message c) w)
         | None => (Return true, w)
         end.
Proof.
  unfold validate_filename. destruct (negb (truthy (strip filename))); [reflexivity|].
  apply scan_invalid_chars_spec.
Qed.

(** A name that is empty or all white space is refused with the emptiness
    message.  A name is accepted exactly when something is left after
    stripping and none of the listed characters occurs in it; acceptance
    prints nothing, refusal prints one line, and no exception is raised. *)
Theorem validate_filename_accepts_iff (filename : string) (w : World) :
  (strip filename = EmptyString ->
     validate_filename filename w
       = (Return false, emit "Error: Filename cannot be empty." w))
  /\ (fst (validate_filename filename w) = Return true
      <-> strip filename <> EmptyString
          /\ forall c, c ∈ invalid_chars -> contains c filename = false)
  /\ (validate_filename filename w = (Return true, w)
      \/ exists line, validate_filename filename w = (Return false, emit line w)).
Proof.
  rewrite validate_filename_cases.
  split; [intros ->; reflexivity|].
  destruct (strip filename) as [|a s] eqn:Hs; cbn [truthy negb].
  - split; [|eauto]. split; [discriminate | intros [Hne _]; congruence].
  - destruct (first_invalid invalid_chars filename) as [c|] eqn:Hf.
    + split; [|eauto]. split; [discriminate|]. intros [_ Hfree]. exfalso.
      apply List.find_some in Hf as [Hin Hc]. apply list_elem_of_In in Hin.
      rewrite (Hfree c Hin) in Hc. discriminate.
    + split; [|auto]. split; [|reflexivity]. intros _. split; [discriminate|].
      intros c Hin. apply list_elem_of_In in Hin.
      apply (List.find_none _ _ Hf c Hin).
Qed.

Lemma validate_filename_accepts_iff_witness :
  validate_filename "   " world0
    = (Return false, emit "Error: Filename cannot be empty." world0)
  /\ (strip "a b.txt" <> EmptyString
      /\ forall c, c ∈ invalid_chars -> contains c "a b.txt" = false).
Proof.
  split.
  - apply (proj1 (validate_filename_accepts_iff "   " world0)). reflexivity.
  - apply (proj1 (proj1 (proj2 (validate_filename_accepts_iff "a b.txt" world0)))).
    reflexivity.
Defined.

(** An accepted name has no directory part: it holds no slash and no
    backslash, [os.path.dirname] of it is empty, and the write-mode check
    of a missing accepted name asks about the current directory. *)
Theorem validated_name_is_bare (filename : string) (w : World) :
  fst (validate_filename filename w) = Return true ->
  contains "/"%char filename = false
  /\ contains "\"%char filename = false
  /\ os_path_dirname filename = EmptyString
  /\ forall w1, fs w1 !! filename = None ->
       check_file_access filename "w" w1
         = (Return (may_write w1 ".", if may_write w1 "." then passed
                                      else msg_dir_unwritable filename),
            log (EvAccess "." W_OK) (log (EvStat filename) w1)).
Proof.
  intros Hok. rewrite validate_filename_cases in Hok.
  destruct (negb (truthy (strip filename))); [discriminate|].
  destruct (first_invalid invalid_chars filename) as [c|] eqn:Hf; [discriminate|].
  assert (Hfree : forall c, In c invalid_chars -> contains c filename = false)
    by (intros c Hin; apply (List.find_none _ _ Hf c Hin)).
  assert (Hslash : contains "/"%char filename = false)
    by (apply Hfree; unfold invalid_chars; cbn; tauto).
  split; [exact Hslash|].
  split; [apply Hfree; unfold invalid_chars; cbn; tauto|].
  split; [apply dirname_no_slash, Hslash|].
  intros w1 Hmiss. rewrite (check_write_missing _ _ Hmiss).
  rewrite (dirname_bare _ Hslash). reflexivity.
Qed.

Lemma validated_name_is_bare_witness : os_path_dirname "notes.txt" = EmptyString.
Proof.
  apply (validated_name_is_bare "notes.txt" world0). reflexivity.
Defined.

(** ** Bounds on what the reader does *)

Lemma only_observed_refl w : only_observed w w.
Proof. repeat split; exists []; rewrite app_nil_r; reflexivity. Qed.

Lemma only_observed_trans w1 w2 w3 :
  only_observed w1 w2 -> only_observed w2 w3 -> only_observed w1 w3.
Proof.
  intros (Hf1 & Hi1 & [l1 Ho1] & [c1 Ht1]) (Hf2 & Hi2 & [l2 Ho2] & [c2 Ht2]).
  repeat split; try congruence.
  - exists (l1 ++ l2)%list. rewrite Ho2, Ho1, app_assoc. reflexivity.
  - exists (c1 ++ c2)%list. rewrite Ht2, Ht1, app_assoc. reflexivity.
Qed.

Lemma only_observed_open path mode w : only_observed w (after_open path mode w).
Proof.
  destruct (after_open_frame path mode w) as (Ffs & Fin & Fout & Ftr & _).
  repeat split; try assumption.
  - exists []. rewrite app_nil_r. assumption.
  - eauto.
Qed.

Lemma only_observed_emit line w : only_observed w (emit line w).
Proof. repeat split; cbn [stdout trace emit]; [eauto | exists []; rewrite app_nil_r; reflexivity]. Qed.

Lemma only_observed_log ev w : only_observed w (log ev w).
Proof. repeat split; cbn [stdout trace log]; [exists []; rewrite app_nil_r; reflexivity | eauto]. Qed.

Lemma loop_bounded filename max_retries retry_delay :
  forall n attempts last_error w,
    Z.to_nat (max_retries - attempts) = n ->
    let w' := snd (attempt_loop filename max_retries retry_delay attempts last_error w) in
    only_observed w w'
    /\ open_calls (trace w') <= open_calls (trace w) + Z.of_nat n
    /\ sleep_calls (trace w') <= sleep_calls (trace w) + Z.of_nat (n - 1).
Proof.
  induction n as [|n IH]; intros attempts last_error w Hn; cbv zeta.
  { rewrite attempt_exit by lia. cbn [snd]. split; [apply only_observed_refl | lia]. }
  assert (Hin : attempts < max_retries) by lia.
  pose proof (open_read_world filename w) as Hw.
  destruct (after_open_frame filename ModeR w) as (_ & _ & _ & Ftr & _).
  assert (Hop : open_calls (trace (after_open filename ModeR w)) = open_calls (trace w) + 1)
    by (rewrite Ftr, open_calls_app; reflexivity).
  assert (Hsl : sleep_calls (trace (after_open filename ModeR w)) = sleep_calls (trace w))
    by (rewrite Ftr, sleep_calls_app; cbn [sleep_calls]; lia).
  pose proof (only_observed_open filename ModeR w) as Hobs.
  destruct (open_read filename w) as [[content|e] w1] eqn:Hopen; cbn [snd] in Hw; subst w1.
  { rewrite (attempt_ok _ _ _ _ _ _ _ _ Hin Hopen). cbn [snd]. split; [assumption | lia]. }
  destruct (permanent (exn_class e)) eqn:Hperm.
  { rewrite (attempt_permanent _ _ _ _ _ _ _ _ Hin Hopen Hperm). cbn [snd].
    split; [assumption | lia]. }
  destruct (isinstance e OSError) eqn:Hos.
  2:{ rewrite (attempt_unexpected _ _ _ _ _ _ _ _ Hin Hopen Hos);
        [|intros Hc; rewrite Hc in Hperm; discriminate].
      cbn [snd]. split; [assumption | lia]. }
  assert (Htr : transient e = true) by (unfold transient; rewrite Hos, Hperm; reflexivity).
  rewrite (attempt_transient _ _ _ _ _ _ _ _ Hin Hopen Htr). cbv zeta.
  set (w2 := emit (attempt_report (attempts + 1) max_retries e) (after_open filename ModeR w)).
  assert (Hobs2 : only_observed w w2)
    by (eapply only_observed_trans; [exact Hobs | apply only_observed_emit]).
  destruct (Z.ltb_spec (attempts + 1) max_retries) as [Hmore|Hlast].
  2:{ cbn [snd]. subst w2. cbn [trace emit]. split; [assumption | lia]. }
  set (w3 := emit (retry_notice retry_delay) w2).
  assert (Hobs3 : only_observed w w3)
    by (eapply only_observed_trans; [exact Hobs2 | apply only_observed_emit]).
  destruct (Z.ltb_spec retry_delay 0).
  { cbn [snd]. subst w3 w2. cbn [trace emit]. split; [assumption | lia]. }
  destruct (IH (attempts + 1) (Some (str e)) (log (EvSleep retry_delay) w3) ltac:(lia))
    as (Hobs4 & Hop4 & Hsl4).
  split.
  - eapply only_observed_trans; [|exact Hobs4].
    eapply only_observed_trans; [exact Hobs3 | apply only_observed_log].
  - subst w3 w2. cbn [trace emit log] in *.
    rewrite open_calls_app, sleep_calls_app in *. cbn [open_calls sleep_calls] in *. lia.
Qed.

(** Whatever the faults and the parameters, a call of the reader opens
    the file at most [max_retries] times, sleeps at most [max_retries - 1]
    times, and does nothing else to the world than print and log: the file
    table and the keyboard input are untouched. *)
Theorem reader_bounded (filename : string) (max_retries retry_delay : Z) (w : World) :
  let w' := snd (read_file_with_retries filename max_retries retry_delay w) in
  only_observed w w'
  /\ open_calls (trace w') <= open_calls (trace w) + Z.max 0 max_retries
  /\ sleep_calls (trace w') <= sleep_calls (trace w) + Z.max 0 (max_retries - 1).
Proof.
  cbv zeta. unfold read_file_with_retries.
  destruct (loop_bounded filename max_retries retry_delay
              (Z.to_nat (max_retries - 0)) 0 None w eq_refl) as (Hobs & Hop & Hsl).
  split; [exact Hobs|]. lia.
Qed.

(** An exception that is neither an [OSError] nor a decoding error ends
    the read at the first attempt: it is wrapped in a [FileReadError]
    whose text quotes it, with no retry, no sleep and no output. *)
Theorem read_unexpected_exception (filename : string) (max_retries retry_delay : Z)
    (w : World) (e : exn) :
  1 <= max_retries ->
  next_fault w = Some e ->
  isinstance e OSError = false -> exn_class e <> UnicodeDecodeError ->
  read_file_with_retries filename max_retries retry_delay w
    = (Raise (read_error ("Unexpected error reading '" +:+ filename +:+ "': " +:+ str e)),
       after_open filename ModeR w).
Proof.
  intros Hm Hnext Hos Hde. unfold read_file_with_retries.
  apply attempt_unexpected; [lia | apply open_read_fault, Hnext | assumption | assumption].
Qed.

Lemma read_unexpected_exception_witness :
  fst (read_file_with_retries "notes.txt" 3 1
         (set_faults [Some (mk_exn ValueError "embedded null byte")] world0))
    = Raise (read_error "Unexpected error reading 'notes.txt': embedded null byte").
Proof.
  rewrite (read_unexpected_exception "notes.txt" 3 1
             (set_faults [Some (mk_exn ValueError "embedded null byte")] world0)
             (mk_exn ValueError "embedded null byte"));
    [reflexivity | lia | reflexivity | reflexivity | discriminate].
Defined.

Lemma read_outcome_classified_witness :
  classified (fst (read_file_with_retries "notes.txt" 3 1
                     (set_faults [Some eio; Some eio; Some eio] world0))).
Proof. apply read_outcome_classified; lia. Defined.

Lemma read_negative_delay_witness :
  fst (read_file_with_retries "notes.txt" 3 (-1) (set_faults [Some eio] world0))
    = Raise (mk_exn ValueError "sleep length must be non-negative").
Proof. apply (read_negative_delay "notes.txt" 3 (-1) _ eio); [lia | lia | reflexivity | reflexivity]. Defined.

(** ** The menu *)

Lemma options_lookup choice :
  default "uppercase" (options !! choice) = kind_of_choice choice.
Proof.
  unfold options, kind_of_choice.
  repeat (rewrite lookup_insert; case_decide as Hk;
          [subst choice; reflexivity
          |apply not_eq_sym, String.eqb_neq in Hk; rewrite Hk; clear Hk]).
  rewrite lookup_empty. reflexivity.
Qed.

(** The menu answers one of the four kinds whatever is typed: the entries
    ["1"] to ["4"] pick theirs and any other line, the empty one included,
    picks ["uppercase"].  One line of input is taken and the file table is
    left alone; with no line left the call raises [EOFError]. *)
Theorem modification_choice_recognised (w : World) :
  (forall choice rest, stdin w = choice :: rest ->
     exists w',
       get_modification_choice w = (Return (kind_of_choice choice), w')
       /\ recognised (kind_of_choice choice)
       /\ stdin w' = rest /\ fs w' = fs w)
  /\ (stdin w = [] ->
      fst (get_modification_choice w)
        = Raise (mk_exn EOFError "EOF when reading a line")).
Proof.
  split.
  - intros choice rest Hin.
    destruct (get_modification_choice_run choice rest w Hin)
      as (w' & Hrun & Hfs & _ & Hrest & _).
    exists w'. rewrite Hrun, options_lookup. repeat split; try assumption.
    unfold recognised, kind_of_choice.
    repeat (destruct (String.eqb choice _); [set_solver|]). set_solver.
  - intros Hin. destruct w as [f q i o tr]. cbn [stdin] in Hin. subst i. reflexivity.
Qed.

Lemma modification_choice_recognised_witness :
  fst (get_modification_choice (set_stdin ["4"] world0)) = Return "reverse_lines"
  /\ fst (get_modification_choice (set_stdin ["9"] world0)) = Return "uppercase"
  /\ fst (get_modification_choice world0) = Raise (mk_exn EOFError "EOF when reading a line").
Proof.
  split; [|split].
  - destruct (proj1 (modification_choice_recognised (set_stdin ["4"] world0)) "4" [] eq_refl)
      as (w' & Hrun & _). rewrite Hrun. reflexivity.
  - destruct (proj1 (modification_choice_recognised (set_stdin ["9"] world0)) "9" [] eq_refl)
      as (w' & Hrun & _). rewrite Hrun. reflexivity.
  - apply (proj2 (modification_choice_recognised world0)). reflexivity.
Defined.

(** ** Lines under the transformations *)

Lemma string_length_app a b :
  String.length (a +:+ b) = (String.length a + String.length b)%nat.
Proof. induction a as [|c a IH]; simpl; [reflexivity | rewrite IH; reflexivity]. Qed.

Lemma padded_length_join sep pieces :
  pieces <> [] ->
  S (String.length (join (String sep EmptyString) pieces)) = padded_length pieces.
Proof.
  unfold padded_length.
  induction pieces as [|p [|q qs] IH]; [congruence | intros _ | intros _].
  - cbn. lia.
  - change (join (String sep EmptyString) (p :: q :: qs))
      with (p +:+ String sep (join (String sep EmptyString) (q :: qs))).
    rewrite string_length_app. specialize (IH ltac:(discriminate)).
    change (list_sum (map (fun piece => S (String.length piece)) (p :: q :: qs)))
      with (S (String.length p)
            + list_sum (map (fun piece => S (String.length piece)) (q :: qs)))%nat.
    rewrite <- IH. cbn [String.length]. lia.
Qed.

Lemma padded_length_rev pieces : padded_length (rev pieces) = padded_length pieces.
Proof.
  unfold padded_length. induction pieces as [|p ps IH]; [reflexivity|].
  cbn [rev]. rewrite List.map_app, list_sum_app, IH.
  change (list_sum (map (fun piece => S (String.length piece)) (p :: ps)))
    with (S (String.length p)
          + list_sum (map (fun piece => S (String.length piece)) ps))%nat.
  cbn. lia.
Qed.

Lemma rev_not_nil {A} (l : list A) : l <> [] -> rev l <> [].
Proof.
  intros Hne Hnil. apply Hne. rewrite <- (rev_involutive l), Hnil. reflexivity.
Qed.

Lemma modify_reverse_lines `{CaseMethods} s :
  truthy s = true ->
  modify_content s "reverse_lines" = join (String LF EmptyString) (rev (split LF s)).
Proof.
  intros Hs. unfold modify_content. rewrite Hs. cbn [negb].
  change (String.eqb "reverse_lines" "uppercase") with false.
  change (String.eqb "reverse_lines" "lowercase") with false.
  change (String.eqb "reverse_lines" "capitalize_lines") with false.
  change (String.eqb "reverse_lines" "reverse_lines") with true.
  cbv iota. rewrite map_id. reflexivity.
Qed.

(** The lines of the [reverse_lines] result are the lines of the content
    in reverse order, and the result has as many characters as the
    content. *)
Theorem reverse_lines_reverses `{CaseMethods} (s : string) :
  split LF (modify_content s "reverse_lines") = rev (split LF s)
  /\ String.length (modify_content s "reverse_lines") = String.length s.
Proof.
  destruct (truthy s) eqn:Hs; [|apply truthy_false_inv in Hs; subst s; split; reflexivity].
  rewrite (modify_reverse_lines s Hs).
  pose proof (rev_not_nil _ (split_not_nil LF s)) as Hne.
  split.
  - apply split_join; [exact Hne | apply List.Forall_rev, split_sep_free].
  - apply Nat.succ_inj.
    rewrite (padded_length_join LF _ Hne), padded_length_rev.
    rewrite <- (padded_length_join LF _ (split_not_nil LF s)), join_split. reflexivity.
Qed.

Lemma modify_capitalize_lines `{CaseMethods} s :
  truthy s = true ->
  modify_content s "capitalize_lines"
    = join (String LF EmptyString) (map capitalize (split LF s)).
Proof.
  intros Hs. unfold modify_content. rewrite Hs. cbn [negb].
  change (String.eqb "capitalize_lines" "uppercase") with false.
  change (String.eqb "capitalize_lines" "lowercase") with false.
  change (String.eqb "capitalize_lines" "capitalize_lines") with true.
  reflexivity.
Qed.

(** When [capitalize] puts no line feed into a line that has none,
    [capitalize_lines] works line by line on a non-empty content: the
    result has the same number of lines and each is the capitalised line
    of the same rank. *)
Theorem capitalize_lines_linewise `{CaseMethods} (s : string) :
  (forall line, sep_free LF line -> sep_free LF (capitalize line)) ->
  truthy s = true ->
  split LF (modify_content s "capitalize_lines") = map capitalize (split LF s).
Proof.
  intros Hcap Hs. rewrite (modify_capitalize_lines s Hs).
  apply split_join.
  - pose proof (split_not_nil LF s). destruct (split LF s); [congruence | discriminate].
  - apply List.Forall_map. eapply List.Forall_impl; [|apply split_sep_free].
    exact Hcap.
Qed.

Lemma lower_char_keeps_lf c : Ascii.eqb LF c = false -> Ascii.eqb LF (lower_char c) = false.
Proof. destruct c as [[] [] [] [] [] [] [] []]; vm_compute; trivial. Qed.

Lemma upper_char_keeps_lf c : Ascii.eqb LF c = false -> Ascii.eqb LF (upper_char c) = false.
Proof. destruct c as [[] [] [] [] [] [] [] []]; vm_compute; trivial. Qed.

Lemma ascii_capitalize_keeps_lines line :
  sep_free LF line -> sep_free LF (@capitalize ascii_case line).
Proof.
  unfold sep_free. destruct line as [|a rest]; [trivial|]. cbn [capitalize ascii_case ascii_capitalize contains].
  destruct (Ascii.eqb LF a) eqn:Ha; [discriminate|].
  rewrite (upper_char_keeps_lf a Ha). clear a Ha.
  induction rest as [|b rest IH]; [trivial|]. cbn [map_chars contains].
  destruct (Ascii.eqb LF b) eqn:Hb; [discriminate|].
  rewrite (lower_char_keeps_lf b Hb). exact IH.
Qed.

Lemma capitalize_lines_linewise_witness :
  split LF (@modify_content ascii_case ("hello" +:+ String LF "wORLD") "capitalize_lines")
    = ["Hello"; "World"].
Proof.
  rewrite (@capitalize_lines_linewise ascii_case ("hello" +:+ String LF "wORLD")
             ascii_capitalize_keeps_lines eq_refl).
  reflexivity.
Defined.

(** ** Runs of the Read & Write Challenge *)

Lemma after_open_record path mode f q i o tr :
  after_open path mode (mk_world f q i o tr)
    = mk_world f (tail q) i o (tr ++ [EvOpen path mode]).
Proof. unfold after_open, take_fault. cbn [faults log]. destruct q; reflexivity. Qed.

Lemma read_file_cases filename w :
  (exists content,
     read_file filename w = (Return (Some content), after_open filename ModeR w))
  \/ (exists diag,
     read_file filename w = (Return None, emit diag (after_open filename ModeR w))).
Proof.
  pose proof (open_read_world filename w) as Hw.
  unfold read_file, try_except, bind.
  destruct (open_read filename w) as [[content|e] w1]; cbn [snd] in Hw; subst w1.
  - left. eauto.
  - right. destruct (isinstance e FileNotFoundError); [eauto|].
    destruct (isinstance e PermissionError); [eauto|].
    rewrite isinstance_Exception. eauto.
Qed.

Lemma write_and_report_cases `{CaseMethods} out content modified kind w :
  (exists diag,
     write_and_report out content modified kind w
       = (Return tt, emit diag (after_open out ModeW w))
     /\ fst (write_file out modified w) = Return false)
  \/ (exists r,
     write_and_report out content modified kind w
       = (Return tt,
          emit ("Modified " +:+ of_int (len content) +:+ " characters using '"
                +:+ kind +:+ "' modification.")
            (emit ("Successfully wrote modified content to '" +:+ out +:+ "'.")
               (set_fs (<[out := File r true (Text modified)]> (fs w))
                  (after_open out ModeW w))))
     /\ fst (write_file out modified w) = Return true
     /\ r = match fs w !! out with Some n => permits n R_OK | None => true end).
Proof.
  unfold write_and_report, bind.
  destruct (write_file_world out modified w) as [[diag Hrun] | (r & Hrun & Hr)];
    rewrite Hrun.
  - left. eauto.
  - right. exists r. repeat split. exact Hr.
Qed.

Lemma write_and_report_ok `{CaseMethods} out content modified kind w :
  next_fault w = None -> write_goes_through w out = true ->
  write_and_report out content modified kind w
    = (Return tt,
       emit ("Modified " +:+ of_int (len content) +:+ " characters using '"
             +:+ kind +:+ "' modification.")
         (emit ("Successfully wrote modified content to '" +:+ out +:+ "'.")
            (set_fs (<[out := File (match fs w !! out with
                                    | Some n => permits n R_OK
                                    | None => true
                                    end) true (Text modified)]> (fs w))
               (after_open out ModeW w)))).
Proof.
  intros Hnext Hgo. pose proof (write_file_clean out modified w Hnext) as Hw.
  rewrite Hgo in Hw.
  destruct (write_and_report_cases out content modified kind w)
    as [(diag & _ & Hno) | (r & Hrun & _ & ->)]; [congruence | exact Hrun].
Qed.

(** The file table after [main]: unchanged, or changed at the path typed
    as third line only. *)
Lemma main_file_table `{CaseMethods} w :
  fs (snd (main w)) = fs w
  \/ exists input_filename choice out rest r text,
       stdin w = input_filename :: choice :: out :: rest
       /\ fs (snd (main w)) = <[out := File r true (Text text)]> (fs w).
Proof.
  destruct w as [f q i o tr].
  destruct i as [|input_filename i]; [left; reflexivity|].
  cbv [main bind print input ret emit set_stdin log stdin fs faults stdout trace].
  match goal with |- context [read_file ?a ?b] =>
    destruct (read_file_cases a b) as [[content Hread] | [diag Hread]]; rewrite Hread
  end; rewrite after_open_record; [|left; reflexivity].
  destruct i as [|choice i]; [left; reflexivity|].
  destruct i as [|out i]; [left; reflexivity|].
  cbv [get_modification_choice bind print input ret os_path_exists
       emit set_stdin log stdin fs faults stdout trace].
  set (kind := default "uppercase" (options !! choice)).
  assert (Htail : forall w0, fs w0 = f ->
            fs (snd (write_and_report out content (modify_content content kind) kind w0)) = f
            \/ exists r text,
                 fs (snd (write_and_report out content (modify_content content kind) kind w0))
                   = <[out := File r true (Text text)]> f).
  { intros w0 Hf.
    destruct (write_and_report_cases out content (modify_content content kind) kind w0)
      as [(diag & Hrun & _) | (r & Hrun & _)]; rewrite Hrun; cbn [snd fs emit set_fs].
    - left. destruct (after_open_frame out ModeW w0) as (Ffs & _). congruence.
    - right. rewrite Hf. eauto. }
  destruct (bool_decide (is_Some (f !! out))).
  - destruct i as [|answer i]; [left; reflexivity|].
    cbv [emit set_stdin log stdin fs faults stdout trace].
    destruct (negb (String.eqb (lower answer) "y")); [left; reflexivity|].
    edestruct Htail as [Hsame | (r & text & Hnew)];
      [| left; exact Hsame | right; do 6 eexists; split; [reflexivity | exact Hnew]].
    reflexivity.
  - edestruct Htail as [Hsame | (r & text & Hnew)];
      [| left; exact Hsame | right; do 6 eexists; split; [reflexivity | exact Hnew]].
    reflexivity.
Qed.

(** [main] changes no entry of the file table but the one named on the
    third line of input; with fewer than three lines typed it changes
    none.  This holds for every input, every file table and every fault. *)
Theorem main_touches_only_output `{CaseMethods} (w : World) (p : string) :
  stdin w !! 2%nat <> Some p ->
  fs (snd (main w)) !! p = fs w !! p.
Proof.
  intros Hp.
  destruct (main_file_table w)
    as [-> | (input_filename & choice & out & rest & r & text & Hin & ->)];
    [reflexivity|].
  apply lookup_insert_ne. intros ->. apply Hp. rewrite Hin. reflexivity.
Qed.

Lemma main_touches_only_output_witness :
  fs (snd (@main ascii_case (set_stdin ["notes.txt"; "1"; "out.txt"] world0))) !! "notes.txt"
    = Some (File true true (Text "hello")).
Proof.
  rewrite (@main_touches_only_output ascii_case
             (set_stdin ["notes.txt"; "1"; "out.txt"] world0) "notes.txt");
    [reflexivity | discriminate].
Defined.

(** A run of [main] with a readable input file whose content holds no
    carriage return, an output name that is a plain file name and does not
    exist yet, a writable current directory and no fault: the output file
    is created holding the content transformed by the chosen kind, the rest
    of the file table is as before, three lines of input are taken, and the
    last two lines printed report the write and the length of the content
    read. *)
Theorem main_creates_output `{CaseMethods} (w : World)
    (input_filename choice out content : string) (rest : list string) (wr rd : bool) :
  stdin w = input_filename :: choice :: out :: rest ->
  faults w = [] ->
  fs w !! input_filename = Some (File true wr (Text content)) ->
  contains CR content = false ->
  plain_name out = true ->
  fs w !! out = None ->
  fs w !! "." = Some (Dir rd true) ->
  exists w' lines,
    main w = (Return tt, w')
    /\ fs w' = <[out := File true true
                          (Text (modify_content content (kind_of_choice choice)))]> (fs w)
    /\ stdin w' = rest
    /\ stdout w'
       = (stdout w ++ lines
          ++ ["Successfully wrote modified content to '" +:+ out +:+ "'.";
              "Modified " +:+ of_int (len content) +:+ " characters using '"
              +:+ kind_of_choice choice +:+ "' modification."])%list.
Proof.
  intros Hin Hq Hfs _ Hplain Hout Hdir.
  destruct w as [f q i o tr]. cbn [stdin fs faults] in *. subst i q.
  cbv [main bind print input ret emit set_stdin log stdin fs faults stdout trace].
  erewrite read_file_ok; [|reflexivity|exact Hfs]. rewrite after_open_record.
  cbv [get_modification_choice bind print input ret os_path_exists
       emit set_stdin log stdin fs faults stdout trace].
  rewrite options_lookup, Hout, exists_none.
  rewrite write_and_report_ok;
    [|reflexivity
     |unfold write_goes_through; cbn [fs];
      rewrite Hout, (create_error_plain _ _ Hplain), Hdir; reflexivity].
  rewrite after_open_record. cbn [fs]. rewrite Hout.
  cbv [emit set_fs stdin fs faults stdout trace].
  eexists.
  exists ["=== File Read & Write Challenge ==="; "Enter the name of the file to read: ";
          String LF "Choose a modification type:"; "1. Convert to UPPERCASE";
          "2. Convert to lowercase"; "3. Capitalize each line";
          "4. Reverse the order of lines"; "Enter your choice (1-4): ";
          "Enter the name of the file to write the modified content to: "].
  split; [reflexivity|]. cbn [fs stdin stdout].
  split; [reflexivity|]. split; [reflexivity|].
  rewrite <- !app_assoc. reflexivity.
Qed.

Lemma main_creates_output_witness :
  exists w',
    @main ascii_case (set_stdin ["notes.txt"; "1"; "out.txt"] world0) = (Return tt, w')
    /\ fs w' !! "out.txt" = Some (File true true (Text "HELLO")).
Proof.
  destruct (@main_creates_output ascii_case (set_stdin ["notes.txt"; "1"; "out.txt"] world0)
              "notes.txt" "1" "out.txt" "hello" [] true true)
    as (w' & lines & Hrun & Hfs & _); try reflexivity.
  exists w'. split; [exact Hrun|]. rewrite Hfs. apply lookup_insert_eq.
Defined.

(** A run of [main] whose output path names an existing writable file and
    whose answer to the overwrite question lower-cases to ["y"]: with a
    readable input file and no fault, the output file keeps its read
    permission and now holds the transformed content; this covers writing
    back to the input file itself. *)
Theorem main_overwrites_on_yes `{CaseMethods} (w : World)
    (input_filename choice out answer content : string) (rest : list string)
    (wr r : bool) (old : filedata) :
  stdin w = input_filename :: choice :: out :: answer :: rest ->
  faults w = [] ->
  fs w !! input_filename = Some (File true wr (Text content)) ->
  fs w !! out = Some (File r true old) ->
  lower answer = "y" ->
  exists w',
    main w = (Return tt, w')
    /\ fs w' = <[out := File r true
                          (Text (modify_content content (kind_of_choice choice)))]> (fs w)
    /\ stdin w' = rest
    /\ last (stdout w')
       = Some ("Modified " +:+ of_int (len content) +:+ " characters using '"
               +:+ kind_of_choice choice +:+ "' modification.").
Proof.
  intros Hin Hq Hfs Hout Hans.
  destruct w as [f q i o tr]. cbn [stdin fs faults] in *. subst i q.
  cbv [main bind print input ret emit set_stdin log stdin fs faults stdout trace].
  erewrite read_file_ok; [|reflexivity|exact Hfs]. rewrite after_open_record.
  cbv [get_modification_choice bind print input ret os_path_exists
       emit set_stdin log stdin fs faults stdout trace].
  rewrite options_lookup, Hout, exists_some, Hans.
  change (negb (String.eqb "y" "y")) with false. cbv iota.
  rewrite write_and_report_ok;
    [|reflexivity|unfold write_goes_through; cbn [fs]; rewrite Hout; reflexivity].
  rewrite after_open_record. cbn [fs]. rewrite Hout.
  cbv [emit set_fs stdin fs faults stdout trace permits].
  eexists. split; [reflexivity|]. cbn [fs stdin stdout].
  split; [reflexivity|]. split; [reflexivity|]. apply last_snoc.
Qed.

Lemma main_overwrites_on_yes_witness :
  exists w',
    @main ascii_case (set_stdin ["notes.txt"; "4"; "notes.txt"; "Y"] world0) = (Return tt, w')
    /\ fs w' !! "notes.txt" = Some (File true true (Text "hello")).
Proof.
  destruct (@main_overwrites_on_yes ascii_case
              (set_stdin ["notes.txt"; "4"; "notes.txt"; "Y"] world0)
              "notes.txt" "4" "notes.txt" "Y" "hello" [] true true (Text "hello"))
    as (w' & Hrun & Hfs & _); try reflexivity.
  exists w'. split; [exact Hrun|]. rewrite Hfs. apply lookup_insert_eq.
Defined.

(** When the input file cannot be read, [main] prints the diagnostic of
    [read_file] and returns: one line of input is taken, no question is
    asked about the transformation or the output, and the file table is
    unchanged. *)
Theorem main_stops_on_failed_read `{CaseMethods} (w : World)
    (input_filename : string) (rest : list string) (e : exn) (w1 : World) :
  stdin w = input_filename :: rest ->
  open_read input_filename
    (set_stdin rest (emit "Enter the name of the file to read: "
                       (emit "=== File Read & Write Challenge ===" w)))
    = (Raise e, w1) ->
  main w = (Return tt, emit (read_diagnostic input_filename e) w1)
  /\ fs w1 = fs w
  /\ stdin w1 = rest
  /\ stdout w1 = (stdout w ++ ["=== File Read & Write Challenge ===";
                               "Enter the name of the file to read: "])%list.
Proof.
  intros Hin Hopen.
  pose proof (open_read_world input_filename
                (set_stdin rest (emit "Enter the name of the file to read: "
                                   (emit "=== File Read & Write Challenge ===" w)))) as Hw.
  rewrite Hopen in Hw. cbn [snd] in Hw.
  assert (Hread : read_file input_filename
            (set_stdin rest (emit "Enter the name of the file to read: "
                               (emit "=== File Read & Write Challenge ===" w)))
          = (Return None, emit (read_diagnostic input_filename e) w1)).
  { unfold read_file, try_except, bind at 1. rewrite Hopen. unfold read_diagnostic.
    destruct (isinstance e FileNotFoundError); [reflexivity|].
    destruct (isinstance e PermissionError); [reflexivity|].
    rewrite isinstance_Exception. reflexivity. }
  split.
  - unfold main, bind at 1 2 3. unfold print at 1. unfold input at 1.
    cbn [stdin emit]. rewrite Hin, Hread. reflexivity.
  - subst w1.
    match goal with |- context [after_open ?a ?b ?c] =>
      destruct (after_open_frame a b c) as (Ffs & Fin & Fout & _)
    end.
    rewrite Ffs, Fin, Fout. cbn [fs stdin stdout emit set_stdin].
    rewrite <- app_assoc. repeat split.
Qed.

Lemma main_stops_on_failed_read_witness :
  fst (@main ascii_case (set_stdin ["absent.txt"; "1"; "out.txt"] world0)) = Return tt
  /\ stdin (snd (@main ascii_case (set_stdin ["absent.txt"; "1"; "out.txt"] world0)))
     = ["1"; "out.txt"].
Proof.
  destruct (@main_stops_on_failed_read ascii_case
              (set_stdin ["absent.txt"; "1"; "out.txt"] world0) "absent.txt" ["1"; "out.txt"]
              (mk_exn FileNotFoundError
                 (errno_text "[Errno 2] No such file or directory" "absent.txt"))
              (after_open "absent.txt" ModeR
                 (set_stdin ["1"; "out.txt"]
                    (emit "Enter the name of the file to read: "
                       (emit "=== File Read & Write Challenge ==="
                          (set_stdin ["absent.txt"; "1"; "out.txt"] world0))))))
    as (Hrun & _ & Hin & _); [reflexivity | reflexivity |].
  rewrite Hrun. split; [reflexivity | exact Hin].
Defined.

(** ** The size shown by the file report *)

Lemma scale_size_eq size_value size_index :
  Error_handling_lab.scale_size size_value size_index =
    if Qlt_le_dec 1024 size_value then
      if lt_dec size_index 4 then
        Error_handling_lab.scale_size (size_value / 1024) (size_index + 1)
      else (size_value, size_index)
    else (size_value, size_index).
Proof.
  rewrite Error_handling_lab.scale_size_equation_1.
  destruct (Qlt_le_dec 1024 size_value); [|reflexivity].
  cbn. destruct (lt_dec size_index 4); reflexivity.
Qed.

Lemma scale_size_stops v i :
  (v <= 1024)%Q \/ (4 <= i)%nat ->
  let v' := fst (Error_handling_lab.scale_size v i) in
  let j := snd (Error_handling_lab.scale_size v i) in
  (i <= j)%nat /\ (i <= 4 -> j <= 4)%nat
  /\ (v' * inject_Z (1024 ^ Z.of_nat (j - i)) == v)%Q
  /\ ((j < 4)%nat -> (v' <= 1024)%Q)
  /\ ((i < j)%nat -> (1 < v')%Q)
  /\ (j = i <-> (v <= 1024)%Q \/ (4 <= i)%nat).
Proof.
  intros Hstop. cbv zeta. rewrite scale_size_eq.
  assert (Hsame : (if Qlt_le_dec 1024 v
                   then if lt_dec i 4
                        then Error_handling_lab.scale_size (v / 1024) (i + 1)
                        else (v, i)
                   else (v, i)) = (v, i)).
  { destruct (Qlt_le_dec 1024 v) as [Hbig|Hsmall]; [|reflexivity].
    destruct (lt_dec i 4) as [Hi|Hi]; [|reflexivity].
    destruct Hstop as [Hv|Hi4]; [lra | lia]. }
  rewrite Hsame. cbn [fst snd]. rewrite Nat.sub_diag.
  change (inject_Z (1024 ^ Z.of_nat 0)) with 1%Q.
  split; [lia|]. split; [lia|]. split; [ring|]. split.
  - intros Hj. destruct Hstop as [Hv|Hi4]; [exact Hv | lia].
  - split; [lia|]. split; [intros _; exact Hstop | reflexivity].
Qed.

Lemma scale_size_spec :
  forall n v i, (4 - i = n)%nat ->
    let v' := fst (Error_handling_lab.scale_size v i) in
    let j := snd (Error_handling_lab.scale_size v i) in
    (i <= j)%nat /\ (i <= 4 -> j <= 4)%nat
    /\ (v' * inject_Z (1024 ^ Z.of_nat (j - i)) == v)%Q
    /\ ((j < 4)%nat -> (v' <= 1024)%Q)
    /\ ((i < j)%nat -> (1 < v')%Q)
    /\ (j = i <-> (v <= 1024)%Q \/ (4 <= i)%nat).
Proof.
  induction n as [|n IH]; intros v i Hn.
  { apply scale_size_stops. right. lia. }
  destruct (Qlt_le_dec 1024 v) as [Hbig|Hsmall];
    [|apply scale_size_stops; left; exact Hsmall].
  cbv zeta. rewrite scale_size_eq.
  destruct (Qlt_le_dec 1024 v) as [_|Hsmall]; [|lra].
  destruct (lt_dec i 4) as [Hi|Hi]; [|lia].
  specialize (IH (v / 1024)%Q (i + 1)%nat ltac:(lia)). cbv zeta in IH.
  destruct (Error_handling_lab.scale_size (v / 1024) (i + 1)) as [v' j].
  cbn [fst snd] in *. destruct IH as (Hij & Hj4 & Hval & Hle & Hgt & Hstop).
  assert (Hpow : (inject_Z (1024 ^ Z.of_nat (j - i))
                  == 1024 * inject_Z (1024 ^ Z.of_nat (j - (i + 1))))%Q).
  { replace (Z.of_nat (j - i)) with (Z.succ (Z.of_nat (j - (i + 1)))) by lia.
    rewrite Z.pow_succ_r by lia. rewrite inject_Z_mult. reflexivity. }
  split; [lia|]. split; [lia|]. split; [|split; [exact Hle|split]].
  - rewrite Hpow, Qmult_assoc, (Qmult_comm v' 1024), <- Qmult_assoc, Hval. field.
  - intros _. destruct (Nat.eq_dec j (i + 1)) as [->|Hne]; [|apply Hgt; lia].
    rewrite Nat.sub_diag in Hval.
    change (inject_Z (1024 ^ Z.of_nat 0)) with 1%Q in Hval.
    assert (Hv' : (v' == v / 1024)%Q) by (rewrite <- Hval; ring).
    rewrite Hv'. apply Qlt_shift_div_l; lra.
  - split; [lia|]. intros [Hv|Hi4]; [lra | lia].
Qed.

(** The unit of the size line, for a size from 0 to below 2^53 bytes, where
    the floats of the code are exact: the value and the index found by the
    loop give back the size, [value * 1024^index = file_size]; the index is
    at most 4 (TB); below TB the value is at most 1024, and above B it
    exceeds 1, so the unit is the smallest that brings the value to 1024
    or less; a size up to 1024 bytes, and no other, is shown in bytes. *)
Theorem size_unit_selection (file_size : Z) :
  0 <= file_size < 2 ^ 53 ->
  let value := fst (Error_handling_lab.scale_size (inject_Z file_size) 0) in
  let index := snd (Error_handling_lab.scale_size (inject_Z file_size) 0) in
  (index <= 4)%nat
  /\ (value * inject_Z (1024 ^ Z.of_nat index) == inject_Z file_size)%Q
  /\ ((index < 4)%nat -> (value <= 1024)%Q)
  /\ ((0 < index)%nat -> (1 < value)%Q)
  /\ (index = 0%nat <-> file_size <= 1024).
Proof.
  intros _. cbv zeta.
  destruct (scale_size_spec 4 (inject_Z file_size) 0 eq_refl)
    as (_ & Hj4 & Hval & Hle & Hgt & Hstop).
  rewrite Nat.sub_0_r in Hval.
  split; [lia|]. split; [exact Hval|]. split; [exact Hle|]. split; [exact Hgt|].
  rewrite Hstop. split.
  - intros [Hq|Hi]; [|lia]. rewrite Zle_Qle. exact Hq.
  - intros Hz. left. rewrite Zle_Qle in Hz. exact Hz.
Qed.

(** ** The prompt loop of the lab *)

Lemma quiet_refl w : quiet w w.
Proof. repeat split. Qed.

Lemma quiet_trans w1 w2 w3 : quiet w1 w2 -> quiet w2 w3 -> quiet w1 w3.
Proof. intros (? & ? & ?) (? & ? & ?). repeat split; congruence. Qed.

Lemma quiet_emit line w : quiet w (emit line w).
Proof. repeat split. Qed.

Lemma quiet_stat path w : quiet w (log (EvStat path) w).
Proof.
  repeat split. cbn [trace log]. rewrite open_calls_app. cbn [open_calls]. lia.
Qed.

Lemma quiet_access path how w : quiet w (log (EvAccess path how) w).
Proof.
  repeat split. cbn [trace log]. rewrite open_calls_app. cbn [open_calls]. lia.
Qed.

Lemma input_run prompt w r w1 :
  input prompt w = (r, w1) ->
  quiet w w1
  /\ ((exists line, r = Return line) \/ (r = Raise eof_error /\ stdin w1 = [])).
Proof.
  unfold input. destruct (stdin w) as [|line rest] eqn:Hin; intros [= <- <-].
  - split; [apply quiet_emit|]. right. split; [reflexivity | exact Hin].
  - split; [repeat split|]. left. eauto.
Qed.

Lemma validate_run filename w r w1 :
  validate_filename filename w = (r, w1) ->
  quiet w w1
  /\ exists b, r = Return b /\ forall w0, fst (validate_filename filename w0) = Return b.
Proof.
  rewrite validate_filename_cases. intros Hrun.
  assert (Hany : forall w0, fst (validate_filename filename w0)
            = if negb (truthy (strip filename)) then Return false
              else match first_invalid invalid_chars filename with
                   | Some _ => Return false
                   | None => Return true
                   end).
  { intros w0. rewrite validate_filename_cases.
    destruct (negb (truthy (strip filename))); [reflexivity|].
    destruct (first_invalid invalid_chars filename); reflexivity. }
  destruct (negb (truthy (strip filename))).
  - injection Hrun as <- <-. split; [apply quiet_emit|]. eauto.
  - destruct (first_invalid invalid_chars filename); injection Hrun as <- <-.
    + split; [apply quiet_emit|]. eauto.
    + split; [apply quiet_refl|]. eauto.
Qed.

Lemma check_read_run filename w r w1 :
  check_file_access filename "r" w = (r, w1) ->
  quiet w w1
  /\ exists b msg, r = Return (b, msg)
       /\ (b = true -> exists wr data, fs w !! filename = Some (File true wr data)).
Proof.
  destruct (fs w !! filename) as [[rd wr data|rd wr]|] eqn:Hfs.
  - rewrite (check_read_file _ _ _ _ _ Hfs). intros [= <- <-]. split.
    + eapply quiet_trans; [|apply quiet_access].
      eapply quiet_trans; apply quiet_stat.
    + do 2 eexists. split; [reflexivity|]. intros ->. eauto.
  - rewrite (check_read_not_file _ _ _ _ Hfs). intros [= <- <-]. split.
    + eapply quiet_trans; apply quiet_stat.
    + do 2 eexists. split; [reflexivity|]. discriminate.
  - rewrite (check_read_missing _ _ Hfs). intros [= <- <-]. split.
    + apply quiet_stat.
    + do 2 eexists. split; [reflexivity|]. discriminate.
Qed.

Lemma gate_post_transfer w w2 out :
  quiet w w2 -> gate_post w2 out -> gate_post w out.
Proof.
  intros Hq (Hq2 & Hsome & Hnone & Hraise).
  split; [eapply quiet_trans; eassumption|]. split; [|split; assumption].
  intros filename Hf. destruct (Hsome filename Hf) as [Hv (wr & data & Hfile)].
  split.
  - destruct (validate_run filename w2 _ _ (surjective_pairing _)) as (_ & b & Hb & Hany).
    rewrite Hany in Hv. rewrite Hany. exact Hv.
  - destruct Hq as (Hfs & _). rewrite <- Hfs. eauto.
Qed.

Ltac quiet_chain :=
  first [ eassumption
        | eapply quiet_trans; [eassumption | quiet_chain]
        | eapply quiet_trans; [apply quiet_emit | eassumption]
        | apply quiet_emit ].

Lemma prompt_loop_post `{CaseMethods} (w : World) :
  gate_post w (Error_handling_lab.prompt_loop w).
Proof.
  funelim (Error_handling_lab.prompt_loop w);
    repeat match goal with
           | Hc : {| pr1 := _; pr2 := _ |} = _ |- _ => clear Hc
           | Hc : _ = Error_handling_lab.prompt_loop _ |- _ => clear Hc
           end;
    repeat match goal with
           | Hrun : input _ _ = _ |- _ => apply input_run in Hrun as [? [[? ?]|[? ?]]]
           | Hrun : validate_filename _ _ = _ |- _ =>
               apply validate_run in Hrun as (? & ? & ? & ?)
           | Hrun : check_file_access _ _ _ = _ |- _ =>
               apply check_read_run in Hrun as (? & ? & ? & ? & ?)
           | Hrun : (print _ ;; input _) _ = _ |- _ =>
               unfold bind, print in Hrun; apply input_run in Hrun as [? [[? ?]|[? ?]]]
           end;
    try discriminate;
    repeat match goal with
           | Heq : Return _ = Return _ |- _ => injection Heq as Heq; subst
           | Heq : Raise _ = Raise _ |- _ => injection Heq as Heq; subst
           end.
  - split; [quiet_chain|]. cbn [fst snd].
    split; [discriminate|]. split; [discriminate|]. intros e [= <-]. auto.
  - eapply gate_post_transfer; [|eassumption]. quiet_chain.
  - assert (Hq2 : quiet w w2) by quiet_chain.
    assert (Hq : quiet w w3) by (eapply quiet_trans; eassumption).
    split; [exact Hq|]. cbn [fst snd].
    split; [|split; discriminate]. intros f [= <-].
    match goal with Hany : forall w0, fst (validate_filename _ w0) = _ |- _ =>
      split; [apply Hany|] end.
    match goal with
    | Hfile : true = true -> exists wr data, fs w2 !! _ = _ |- _ =>
        destruct (Hfile eq_refl) as (wr & data & Hf)
    end.
    destruct Hq2 as (Hfs & _). rewrite <- Hfs. eauto.
  - assert (Hq : quiet w w4) by quiet_chain.
    match goal with |- context [negb ?b] => destruct (negb b) end.
    + unfold bind, print, ret. cbn [fst snd].
      split; [eapply quiet_trans; [exact Hq | apply quiet_emit]|]. cbn [fst snd].
      split; [discriminate|]. split; [|discriminate].
      intros _. cbn [stdout emit]. apply last_snoc.
    + eapply gate_post_transfer; [exact Hq | eassumption].
  - split; [quiet_chain|].
    cbn [fst snd]. split; [discriminate|]. split; [discriminate|].
    intros e [= <-]. auto.
Qed.

(** For every state of the console and of the file table, and whatever is
    typed, the prompt loop of the lab opens no file, takes no fault and
    changes no file.  It hands on a name only if [validate_filename]
    accepts it and the file table holds a readable regular file under it;
    it gives up only after printing "Exiting program."; and the only
    exception it lets out is the [EOFError] of an exhausted input. *)
Theorem prompt_loop_gate `{CaseMethods} (w : World) :
  let r := fst (Error_handling_lab.prompt_loop w) in
  let w' := snd (Error_handling_lab.prompt_loop w) in
  fs w' = fs w /\ faults w' = faults w
  /\ open_calls (trace w') = open_calls (trace w)
  /\ (forall filename, r = Return (Some filename) ->
        fst (validate_filename filename w) = Return true
        /\ exists wr data, fs w !! filename = Some (File true wr data))
  /\ (r = Return None -> last (stdout w') = Some "Exiting program.")
  /\ (forall e, r = Raise e ->
        e = mk_exn EOFError "EOF when reading a line" /\ stdin w' = []).
Proof.
  cbv zeta. destruct (prompt_loop_post w) as ((Hfs & Hq & Hop) & Hsome & Hnone & Hraise).
  split; [exact Hfs|]. split; [exact Hq|]. split; [exact Hop|].
  split; [exact Hsome|]. split; [exact Hnone | exact Hraise].
Qed.

Lemma prompt_loop_gate_witness :
  fst (@Error_handling_lab.prompt_loop ascii_case
         (set_stdin ["bad<name"; "absent.txt"; "y"; "notes.txt"] world0))
    = Return (Some "notes.txt")
  /\ exists wr data, fs world0 !! "notes.txt" = Some (File true wr data).
Proof.
  split; [reflexivity|].
  destruct (@prompt_loop_gate ascii_case
              (set_stdin ["bad<name"; "absent.txt"; "y"; "notes.txt"] world0))
    as (_ & _ & _ & Hsome & _).
  destruct (Hsome "notes.txt" eq_refl) as [_ Hfile]. exact Hfile.
Defined.

(** ** The lab program *)

(** How [main] of the lab ends.  Once the prompt loop has handed on a
    name, [main] returns normally and the last line printed is "Program
    finished.", whatever the reader, the platform or the input do: every
    exception is reported by one of the two handlers.  When the user gives
    up, [main] returns with "Exiting program." as last line.  When the
    input runs out in the prompt loop, [EOFError] leaves [main]. *)
Theorem lab_main_endings `{CaseMethods} `{Error_handling_lab.Platform} (w : World) :
  let start :=
    emit "This program demonstrates comprehensive error handling with files."
      (emit "=== Error Handling Lab ===" w) in
  (forall filename w1,
     Error_handling_lab.prompt_loop start = (Return (Some filename), w1) ->
     exists w', Error_handling_lab.main w = (Return tt, w')
       /\ last (stdout w') = Some (String LF "Program finished."))
  /\ (forall w1, Error_handling_lab.prompt_loop start = (Return None, w1) ->
     Error_handling_lab.main w = (Return tt, w1)
     /\ last (stdout w1) = Some "Exiting program.")
  /\ (forall e w1, Error_handling_lab.prompt_loop start = (Raise e, w1) ->
     Error_handling_lab.main w = (Raise (mk_exn EOFError "EOF when reading a line"), w1)).
Proof.
  cbv zeta. split; [|split].
  - intros filename w1 Hloop.
    unfold Error_handling_lab.main, bind at 1 2 3, print at 1 2. rewrite Hloop.
    unfold Error_handling_lab.try_finally, try_except.
    match goal with |- context [let (r, w') := (match ?body w1 with _ => _ end) in _] =>
      destruct (body w1) as [[[]|e] w2]
    end.
    + eexists. split; [reflexivity|]. cbn [snd print stdout emit]. apply last_snoc.
    + destruct (isinstance e FileReadError).
      * eexists. split; [reflexivity|]. cbn [snd print stdout emit]. apply last_snoc.
      * rewrite isinstance_Exception.
        eexists. split; [reflexivity|]. cbn [snd print stdout emit]. apply last_snoc.
  - intros w1 Hloop.
    unfold Error_handling_lab.main, bind at 1 2 3, print at 1 2. rewrite Hloop.
    split; [reflexivity|].
    destruct (prompt_loop_post
                (emit "This program demonstrates comprehensive error handling with files."
                   (emit "=== Error Handling Lab ===" w))) as (_ & _ & Hnone & _).
    rewrite Hloop in Hnone. apply Hnone. reflexivity.
  - intros e w1 Hloop.
    unfold Error_handling_lab.main, bind at 1 2 3, print at 1 2. rewrite Hloop.
    destruct (prompt_loop_post
                (emit "This program demonstrates comprehensive error handling with files."
                   (emit "=== Error Handling Lab ===" w))) as (_ & _ & _ & Hraise).
    rewrite Hloop in Hraise. destruct (Hraise e eq_refl) as [-> _]. reflexivity.
Qed.

Lemma lab_main_endings_witness :
  fst (@Error_handling_lab.main ascii_case Error_handling_lab.still_platform
         (set_stdin ["absent.txt"; "n"] world0)) = Return tt
  /\ fst (@Error_handling_lab.main ascii_case Error_handling_lab.still_platform
            (set_stdin ["absent.txt"] world0))
     = Raise (mk_exn EOFError "EOF when reading a line")
  /\ exists w',
       @Error_handling_lab.main ascii_case Error_handling_lab.still_platform
         (set_stdin ["notes.txt"; "y"] world0) = (Return tt, w')
       /\ last (stdout w') = Some (String LF "Program finished.").
Proof.
  split; [|split].
  - destruct (@lab_main_endings ascii_case Error_handling_lab.still_platform
                (set_stdin ["absent.txt"; "n"] world0)) as (_ & Hnone & _).
    rewrite (proj1 (Hnone
               (snd (@Error_handling_lab.prompt_loop ascii_case
                       (emit "This program demonstrates comprehensive error handling with files."
                          (emit "=== Error Handling Lab ==="
                             (set_stdin ["absent.txt"; "n"] world0)))))
               ltac:(vm_compute; reflexivity))).
    reflexivity.
  - destruct (@lab_main_endings ascii_case Error_handling_lab.still_platform
                (set_stdin ["absent.txt"] world0)) as (_ & _ & Hraise).
    rewrite (Hraise (mk_exn EOFError "EOF when reading a line")
               (snd (@Error_handling_lab.prompt_loop ascii_case
                       (emit "This program demonstrates comprehensive error handling with files."
                          (emit "=== Error Handling Lab ==="
                             (set_stdin ["absent.txt"] world0)))))); [reflexivity|].
    vm_compute. reflexivity.
  - destruct (@lab_main_endings ascii_case Error_handling_lab.still_platform
                (set_stdin ["notes.txt"; "y"] world0)) as (Hsome & _).
    apply (Hsome "notes.txt"
             (snd (@Error_handling_lab.prompt_loop ascii_case
                     (emit "This program demonstrates comprehensive error handling with files."
                        (emit "=== Error Handling Lab ==="
                           (set_stdin ["notes.txt"; "y"] world0)))))).
    vm_compute. reflexivity.
Defined.

(** ** The lab only reads *)

Lemma keeps_ret {A} (a : A) : keeps_files (ret a).
Proof. intros w. reflexivity. Qed.

Lemma keeps_raise {A} e : keeps_files (@raise A e).
Proof. intros w. reflexivity. Qed.

Lemma keeps_print line : keeps_files (print line).
Proof. intros w. reflexivity. Qed.

Lemma keeps_input prompt : keeps_files (input prompt).
Proof. intros w. unfold input. destruct (stdin w); reflexivity. Qed.

Lemma keeps_bind {A B} (c : M A) (k : A -> M B) :
  keeps_files c -> (forall a, keeps_files (k a)) -> keeps_files (bind c k).
Proof.
  intros Hc Hk w. unfold bind. specialize (Hc w).
  destruct (c w) as [[a|e] w1]; cbn [snd] in *; [|exact Hc].
  rewrite Hk. exact Hc.
Qed.

Lemma keeps_try_except {A} (c : M A) (h : exn -> M A) :
  keeps_files c -> (forall e, keeps_files (h e)) -> keeps_files (try_except c h).
Proof.
  intros Hc Hh w. unfold try_except. specialize (Hc w).
  destruct (c w) as [[a|e] w1]; cbn [snd] in *; [exact Hc|].
  rewrite Hh. exact Hc.
Qed.

Lemma keeps_try_finally {A} (c : M A) (final : M unit) :
  keeps_files c -> keeps_files final ->
  keeps_files (Error_handling_lab.try_finally c final).
Proof.
  intros Hc Hf w. unfold Error_handling_lab.try_finally. specialize (Hc w).
  destruct (c w) as [r w1]. cbn [snd] in *. rewrite Hf. exact Hc.
Qed.

Lemma keeps_reader filename max_retries retry_delay :
  keeps_files (read_file_with_retries filename max_retries retry_delay).
Proof.
  intros w. unfold read_file_with_retries.
  destruct (loop_bounded filename max_retries retry_delay
              (Z.to_nat (max_retries - 0)) 0 None w eq_refl) as ((Hfs & _) & _).
  exact Hfs.
Qed.

Lemma keeps_prompt_loop `{CaseMethods} : keeps_files Error_handling_lab.prompt_loop.
Proof. intros w. destruct (prompt_loop_post w) as ((Hfs & _) & _). exact Hfs. Qed.

Ltac keeps_step :=
  first [ apply keeps_ret | apply keeps_raise | apply keeps_print | apply keeps_input
        | apply keeps_reader | apply keeps_prompt_loop
        | apply keeps_bind; [|intros ?]
        | apply keeps_try_except; [|intros ?]
        | apply keeps_try_finally
        | match goal with
          | |- keeps_files (if ?b then _ else _) => destruct b
          | |- keeps_files (match ?x with Some _ => _ | None => _ end) => destruct x
          end
        | assumption | solve [auto] ].

Lemma keeps_display_file_info `{Error_handling_lab.Platform} filename :
  observing _ -> keeps_files (Error_handling_lab.display_file_info filename).
Proof.
  intros (Htime & Hsize & Hmtime & Habs).
  unfold Error_handling_lab.display_file_info. cbv zeta. repeat keeps_step.
Qed.

(** On a platform whose clock and metadata queries leave the file table
    alone, so does the whole lab program, for every input and every fault:
    the lab never creates, changes or removes a file. *)
Theorem lab_main_read_only `{CaseMethods} `{Error_handling_lab.Platform} (w : World) :
  observing _ -> fs (snd (Error_handling_lab.main w)) = fs w.
Proof.
  intros Hobs. pose proof Hobs as (Htime & Hsize & Hmtime & Habs). revert w.
  change (keeps_files Error_handling_lab.main).
  unfold Error_handling_lab.main. cbv zeta.
  repeat first [ apply keeps_display_file_info; exact Hobs | keeps_step ].
Qed.

Lemma still_platform_observing : observing Error_handling_lab.still_platform.
Proof.
  repeat split; intros; try reflexivity.
  unfold keeps_files. intros w. cbn.
  destruct (fs w !! path) as [[? ? []|]|]; reflexivity.
Qed.

Lemma lab_main_read_only_witness :
  fs (snd (@Error_handling_lab.main ascii_case Error_handling_lab.still_platform
             (set_stdin ["notes.txt"; "y"] world0))) = fs world0.
Proof.
  apply (@lab_main_read_only ascii_case Error_handling_lab.still_platform
           (set_stdin ["notes.txt"; "y"] world0) still_platform_observing).
Defined.

(** ** The file report *)

(** [display_file_info] lets no [OSError] out.  When the size query fails
    with one, the only output is the line "Error retrieving file
    information: ..." and the call returns normally.  When all three
    queries answer and the size is from 0 to below 2^53 bytes, where the
    floats of the code are exact, five lines are printed: the heading, the
    base name, the size in the unit found by the loop with the byte count,
    the modification time and the absolute path. *)
Theorem display_file_info_reports `{Error_handling_lab.Platform}
    (filename : string) (w : World) :
  (forall e, fst (Error_handling_lab.display_file_info filename w) = Raise e ->
     isinstance e OSError = false)
  /\ (forall e w1,
     Error_handling_lab.os_path_getsize filename w = (Raise e, w1) ->
     isinstance e OSError = true ->
     Error_handling_lab.display_file_info filename w
       = (Return tt, emit ("Error retrieving file information: " +:+ str e) w1))
  /\ (forall file_size w1 mod_time w2 full_path w3,
     0 <= file_size < 2 ^ 53 ->
     Error_handling_lab.os_path_getsize filename w = (Return file_size, w1) ->
     Error_handling_lab.os_path_getmtime filename w1 = (Return mod_time, w2) ->
     Error_handling_lab.os_path_abspath filename
       (emit ("Last modified: " +:+ Error_handling_lab.strftime_local mod_time)
          (emit (size_line file_size)
             (emit ("Filename: " +:+ Error_handling_lab.os_path_basename filename)
                (emit (String LF "File Information:") w2))))
       = (Return full_path, w3) ->
     Error_handling_lab.display_file_info filename w
       = (Return tt, emit ("Full path: " +:+ full_path) w3)).
Proof.
  split; [|split].
  - intros e. unfold Error_handling_lab.display_file_info, try_except.
    match goal with |- context [match ?body w with _ => _ end] =>
      destruct (body w) as [[[]|e'] w1]
    end; cbn [fst]; [discriminate|].
    destruct (isinstance e' OSError) eqn:Hos; [discriminate|].
    intros [= <-]. exact Hos.
  - intros e w1 Hsize Hos.
    unfold Error_handling_lab.display_file_info, try_except, bind at 1.
    rewrite Hsize, Hos. reflexivity.
  - intros file_size w1 mod_time w2 full_path w3 _ Hsize Hmtime Habs.
    unfold Error_handling_lab.display_file_info, try_except, bind at 1.
    rewrite Hsize. unfold bind at 1. rewrite Hmtime. cbv zeta.
    unfold bind, print. unfold size_line in Habs. rewrite Habs. reflexivity.
Qed.

Lemma display_file_info_reports_witness :
  @Error_handling_lab.display_file_info Error_handling_lab.still_platform "absent.txt" world0
    = (Return tt,
       emit "Error retrieving file information: [Errno 2] No such file or directory: 'absent.txt'"
         world0)
  /\ stdout (snd (@Error_handling_lab.display_file_info Error_handling_lab.still_platform
                    "notes.txt" world0))
     = [String LF "File Information:"; "Filename: notes.txt"; "Size: 5.00 B (5 bytes)";
        "Last modified: 1970-01-01 00:00:00"; "Full path: /notes.txt"].
Proof.
  destruct (@display_file_info_reports Error_handling_lab.still_platform "absent.txt" world0)
    as (_ & Hfail & _).
  destruct (@display_file_info_reports Error_handling_lab.still_platform "notes.txt" world0)
    as (_ & _ & Hok).
  split.
  - apply (Hfail (mk_exn OSError
                    (errno_text "[Errno 2] No such file or directory" "absent.txt")));
      reflexivity.
  - assert (Hsize : 0 <= 5 < 2 ^ 53) by lia.
    rewrite (Hok 5 world0 tt world0 "/notes.txt" _ Hsize eq_refl eq_refl eq_refl).
    reflexivity.
Defined.

Lemma size_unit_selection_witness :
  snd (Error_handling_lab.scale_size (inject_Z 1536) 0) = 1%nat
  /\ (1 < fst (Error_handling_lab.scale_size (inject_Z 1536) 0))%Q
  /\ (fst (Error_handling_lab.scale_size (inject_Z 1536) 0) <= 1024)%Q
  /\ snd (Error_handling_lab.scale_size (inject_Z 1024) 0) = 0%nat.
Proof.
  destruct (size_unit_selection 1536) as (_ & _ & Hle & Hgt & _); [lia|].
  destruct (size_unit_selection 1024) as (_ & _ & _ & _ & Hbytes); [lia|].
  split; [reflexivity|].
  split; [apply Hgt; vm_compute; lia|].
  split; [apply Hle; vm_compute; lia|].
  apply Hbytes. lia.
Defined.
